(** * CoSpend (App.tsx): expense store, grouping and draft flow

    A shallow embedding of the state and the event handlers of
    [src/App.tsx], followed by the properties of the specification that
    concern them.

    - React state ([useState]) becomes a record [State]; a handler is a
      function from the state before the event to the state after it, once
      every queued setter has been applied.
    - Values that come out of [JSON.parse] are modelled by [json]; the array
      elements the store holds at run time are [item]s, whatever their shape
      (TypeScript's [Expense] annotation is erased at run time).
    - [alert] is modelled by a log of messages carried in the state.
    - Host functions the source calls but does not define ([new Date(x)
      .getTime()], the string coercion of a property key) are section
      variables: every theorem holds for any behaviour of the host. They
      stand for conversions that return; a [date] that is an object or an
      array whose own [toString] and [valueOf] yield no primitive makes
      them throw, and is outside the model. *)

From Stdlib Require Import List Bool Arith ZArith QArith String Ascii Lia.
From Stdlib Require Import Permutation Sorted DecimalString DecimalZ.
Import ListNotations.

Local Open Scope string_scope.
Local Open Scope Z_scope.
Local Open Scope list_scope.

(* ================================================================= *)
(** ** JavaScript values *)

(** The result of [JSON.parse]. A number is the rational value of the
    (finite) double it denotes; an object is the list of its own properties,
    each key once. *)
#[warnings="-register-all"]
Inductive json : Type :=
| JNull
| JBool (b : bool)
| JNum (n : Q)
| JStr (s : string)
| JArr (l : list json)
| JObj (fields : list (string * json)).

(** An element of the [expenses] array: any value but [null]. Reading a
    property of [null] throws, so [null] never gets past the first
    [e.id] of [handleImportData]; the store is assumed free of it
    initially. *)
Inductive item : Type :=
| IObj (fields : list (string * json))
| IArr (l : list json)
| IStr (s : string)
| INum (n : Q)
| IBool (b : bool).

(** [asItem j] is [None] exactly when a property read on [j] throws. *)
Definition asItem (j : json) : option item :=
  match j with
  | JNull => None
  | JBool b => Some (IBool b)
  | JNum n => Some (INum n)
  | JStr s => Some (IStr s)
  | JArr l => Some (IArr l)
  | JObj fs => Some (IObj fs)
  end.

Definition toJson (x : item) : json :=
  match x with
  | IObj fs => JObj fs
  | IArr l => JArr l
  | IStr s => JStr s
  | INum n => JNum n
  | IBool b => JBool b
  end.

(** [Array.isArray]. *)
Definition isArray (j : json) : bool :=
  match j with JArr _ => true | _ => false end.

(** Own property lookup; [None] is [undefined]. *)
Fixpoint getOwn (k : string) (fs : list (string * json)) : option json :=
  match fs with
  | [] => None
  | (k', v) :: fs' => if String.eqb k k' then Some v else getOwn k fs'
  end.

(** [x.id] and [x.date]: an own property of an object, [undefined] on
    anything else (no primitive wrapper, array or [Object.prototype] has a
    property of either name). *)
Definition idOf (x : item) : option json :=
  match x with
  | IObj fs => getOwn "id" fs
  | _ => None
  end.

Definition dateOf (x : item) : option json :=
  match x with
  | IObj fs => getOwn "date" fs
  | _ => None
  end.

(** SameValueZero, the equality of [Set.prototype.has]. Arrays and objects
    are compared by reference; an identifier read from a freshly parsed
    candidate is never the very object held by a stored record. *)
Definition sameValueZero (a b : option json) : bool :=
  match a, b with
  | None, None => true
  | Some JNull, Some JNull => true
  | Some (JBool x), Some (JBool y) => Bool.eqb x y
  | Some (JNum x), Some (JNum y) => Qeq_bool x y
  | Some (JStr x), Some (JStr y) => String.eqb x y
  | _, _ => false
  end.

(** [new Set(ids).has(v)]. *)
Definition setHas (ids : list (option json)) (v : option json) : bool :=
  existsb (sameValueZero v) ids.


(* ================================================================= *)
(** ** [Array.prototype.sort] with a comparator *)

(** [sort] is stable (ECMAScript 2019). It places [a] after [b] when the
    comparator returns a positive number and treats [NaN] as [0]. The model
    is the stable insertion sort driven by the test "the comparator is
    positive". On a consistent comparator (here: when every date parses)
    the result of a stable sort is determined, and every conforming engine
    returns this list. When some date does not parse the comparator is not
    consistent and the language leaves the order to the engine, which may
    return another one: what the model and an engine then share is that
    the result is a rearrangement of the input and that a list with no
    adjacent pair out of order is returned as it is. Statements about the
    order beyond that carry the hypothesis that the dates parse. *)
Section Sort.
Context {A : Type}.
Variable after : A -> A -> bool.

Fixpoint insert (x : A) (l : list A) : list A :=
  match l with
  | [] => [x]
  | y :: l' => if after x y then y :: insert x l' else x :: l
  end.

Fixpoint sort (l : list A) : list A :=
  match l with
  | [] => []
  | x :: l' => insert x (sort l')
  end.

(** [notAfter a b]: the comparator does not ask for [a] to follow [b]. *)
Definition notAfter (a b : A) : Prop := after a b = false.

End Sort.

(* ================================================================= *)
(** ** The application state and its handlers *)

(** The texts passed to [alert]. *)
Inductive Alert : Type :=
| AlertImageFailed            (* "Failed to process image. Please try again." *)
| AlertImported (n : nat)     (* "Successfully imported ${n} new expenses." *)
| AlertInvalidFormat          (* "Invalid data format." *)
| AlertParseFailed.           (* "Failed to parse data. Make sure the code is correct." *)

(** Whether an alert tells the user of a failure. *)
Definition isFailure (a : Alert) : bool :=
  match a with AlertImported _ => false | _ => true end.

(** An [ExpenseDraft] (or a draft with its payer): the own properties of the
    object. *)
Definition draft : Type := list (string * json).

(** The [useState] cells of [App]. [settings] plays no part in the handlers
    modelled here and is left out. *)
Record State : Type := mkState {
  expenses : list item;
  isAnalyzing : bool;
  draftExpense : option draft;
  isModalOpen : bool;
  isSettingsOpen : bool;
  alerts : list Alert
}.

Definition setExpenses (es : list item) (s : State) : State :=
  mkState es (isAnalyzing s) (draftExpense s) (isModalOpen s)
          (isSettingsOpen s) (alerts s).
Definition setIsAnalyzing (b : bool) (s : State) : State :=
  mkState (expenses s) b (draftExpense s) (isModalOpen s)
          (isSettingsOpen s) (alerts s).
Definition setDraftExpense (d : option draft) (s : State) : State :=
  mkState (expenses s) (isAnalyzing s) d (isModalOpen s)
          (isSettingsOpen s) (alerts s).
Definition setIsModalOpen (b : bool) (s : State) : State :=
  mkState (expenses s) (isAnalyzing s) (draftExpense s) b
          (isSettingsOpen s) (alerts s).
Definition alert (a : Alert) (s : State) : State :=
  mkState (expenses s) (isAnalyzing s) (draftExpense s) (isModalOpen s)
          (isSettingsOpen s) (alerts s ++ [a]).

(** Writing a property of an object literal: an existing key keeps its
    place and takes the new value, a new key goes last. *)
Fixpoint setOwn (k : string) (v : json) (fs : list (string * json))
  : list (string * json) :=
  match fs with
  | [] => [(k, v)]
  | (k', v') :: fs' =>
      if String.eqb k k' then (k, v) :: fs' else (k', v') :: setOwn k v fs'
  end.

(** [{ ...src }] spread onto the properties [fs]. *)
Definition spread (src fs : list (string * json)) : list (string * json) :=
  fold_left (fun acc kv => setOwn (fst kv) (snd kv) acc) src fs.

(** [Date.now().toString()]. *)
Definition Number_toString (n : Z) : string :=
  NilZero.string_of_int (Z.to_int n).

(** Whether [analyzeReceipt]'s promise is fulfilled or rejected. *)
Inductive AnalysisOutcome : Type :=
| Resolved (result : draft)
| Rejected.

(** [Object.prototype]'s members: what [groups[date]] finds on an object
    literal that has no own property of that name. All are truthy and none
    has a [push]. *)
Definition objectPrototypeKeys : list string :=
  [ "constructor"; "__defineGetter__"; "__defineSetter__"; "hasOwnProperty";
    "__lookupGetter__"; "__lookupSetter__"; "isPrototypeOf";
    "propertyIsEnumerable"; "toString"; "valueOf"; "__proto__";
    "toLocaleString" ].

Definition inherited (k : string) : bool :=
  existsb (String.eqb k) objectPrototypeKeys.

(** [asItem] on every element of an array, as [filter]'s callback meets
    them; [None] when one of them makes [e.id] throw. *)
Fixpoint asItems (l : list json) : option (list item) :=
  match l with
  | [] => Some []
  | j :: l' =>
      match asItem j, asItems l' with
      | Some x, Some xs => Some (x :: xs)
      | _, _ => None
      end
  end.

Section App.

(** [new Date(v).getTime()] for a property value [v] ([None] is
    [undefined]); the result [None] is [NaN]. For a string, a number, a
    boolean, [null] and [undefined] the conversion always returns. *)
Variable Date_getTime : option json -> option Z.

(** The string a value that is not a string turns into when used as a
    property key. For a number, a boolean and [null] the conversion always
    returns. *)
Variable ToString : json -> string.

(** The comparator
    [(a, b) => new Date(b.date).getTime() - new Date(a.date).getTime()];
    [None] is [NaN]. *)
Definition compareDates (a b : item) : option Z :=
  match Date_getTime (dateOf b), Date_getTime (dateOf a) with
  | Some tb, Some ta => Some (tb - ta)
  | _, _ => None
  end.

(** The comparator asks for [a] to be placed after [b]. *)
Definition after (a b : item) : bool :=
  match compareDates a b with
  | Some d => 0 <? d
  | None => false
  end.

(** [l.sort((a, b) => ...)]. *)
Definition sortByDate (l : list item) : list item := sort after l.

(** [handleSaveExpense(finalData)]; [now1] and [now2] are what the two
    calls of [Date.now()] return. *)
Definition newExpense (now1 now2 : Z) (finalData : draft) : item :=
  IObj (setOwn "createdAt" (JNum (inject_Z now2))
          (spread finalData [("id", JStr (Number_toString now1))])).

Definition handleSaveExpense (now1 now2 : Z) (finalData : draft) (s : State)
  : State :=
  setDraftExpense None
    (setIsModalOpen false
       (setExpenses
          (sortByDate (newExpense now1 now2 finalData :: expenses s)) s)).

(** [const currentIds = new Set(expenses.map(e => e.id))]. *)
Definition currentIds (s : State) : list (option json) :=
  map idOf (expenses s).

(** [importedData.filter((e: Expense) => !currentIds.has(e.id))]. *)
Definition newItems (s : State) (importedData : list item) : list item :=
  filter (fun e => negb (setHas (currentIds s) (idOf e))) importedData.

(** [handleImportData(jsonString)]. [parsed] is what
    [JSON.parse(jsonString)] does: [None] when it throws, the value
    otherwise. A [null] element makes the [filter] callback throw inside
    the [try], before any setter has been called. The updater of
    [setExpenses] runs on the same [expenses] the handler has read. *)
Definition handleImportData (parsed : option json) (s : State) : State :=
  match parsed with
  | None => alert AlertParseFailed s
  | Some (JArr importedData) =>
      match asItems importedData with
      | None => alert AlertParseFailed s
      | Some candidates =>
          let admitted := newItems s candidates in
          alert (AlertImported (List.length admitted))
            (setExpenses (sortByDate (admitted ++ expenses s)) s)
      end
  | Some _ => alert AlertInvalidFormat s
  end.

(** [onClose={() => setIsModalOpen(false)}] of [EditExpenseModal]. *)
Definition onClose (s : State) : State := setIsModalOpen false s.

(** [handleManualAdd]; [today] is
    [new Date().toISOString().split('T')[0]] and [other] the value of
    [Category.OTHER]. *)
Definition handleManualAdd (today : string) (other : json) (s : State)
  : State :=
  setIsModalOpen true
    (setDraftExpense
       (Some [("date", JStr today); ("item", JStr "");
              ("amount", JNum 0); ("category", other)]) s).

(** [handleFileChange], up to its return: [file] tells whether a file was
    chosen and [setupThrows] whether creating the reader or starting the
    read throws. The [catch] covers nothing else: the callback given to
    [onloadend] runs after the handler has returned. *)
Definition handleFileChange (file setupThrows : bool) (s : State) : State :=
  if file then
    if setupThrows
    then alert AlertImageFailed (setIsAnalyzing false (setIsAnalyzing true s))
    else setIsAnalyzing true s
  else s.

(** The [async] callback of [reader.onloadend]. When [await
    analyzeReceipt(...)] rejects, the callback's own promise rejects and
    none of the setters after the [await] runs. *)
Definition onloadend (outcome : AnalysisOutcome) (s : State) : State :=
  match outcome with
  | Resolved result =>
      setIsAnalyzing false (setIsModalOpen true (setDraftExpense (Some result) s))
  | Rejected => s
  end.


(** *** Grouping by date (the render of [App]) *)

(** The property key [groups[date]] uses for a [date] value. *)
Definition keyOf (date : option json) : string :=
  match date with
  | Some (JStr s) => s
  | Some j => ToString j
  | None => "undefined"
  end.

(** The own properties of [groups], in creation order. *)
Definition Groups : Type := list (string * list item).

Fixpoint getBucket (k : string) (g : Groups) : option (list item) :=
  match g with
  | [] => None
  | (k', b) :: g' => if String.eqb k k' then Some b else getBucket k g'
  end.

(** [groups[k].push(x)] on an own bucket. *)
Fixpoint pushTo (k : string) (x : item) (g : Groups) : Groups :=
  match g with
  | [] => []
  | (k', b) :: g' =>
      if String.eqb k k' then (k', (b ++ [x])%list) :: g' else (k', b) :: pushTo k x g'
  end.

(** One call of the reducer. An own bucket is an array, hence truthy. With
    no own property, [groups[date]] is falsy unless [Object.prototype] has a
    member of that name; then no bucket is created and [.push] is not a
    function: the reducer throws ([None]). *)
Definition groupStep (groups : option Groups) (expense : item)
  : option Groups :=
  match groups with
  | None => None
  | Some g =>
      let date := keyOf (dateOf expense) in
      match getBucket date g with
      | Some _ => Some (pushTo date expense g)
      | None =>
          if inherited date then None
          else Some (pushTo date expense (g ++ [(date, [])])%list)
      end
  end.

(** [expenses.reduce((groups, expense) => ..., {})]. *)
Definition groupedExpenses (l : list item) : option Groups :=
  fold_left groupStep l (Some []).

(** The array index a property key denotes, if any: the canonical decimal
    form of an integer below [2^32 - 1]. *)
Definition arrayIndex (k : string) : option N :=
  match NilEmpty.uint_of_string k with
  | Some u =>
      let n := N.of_uint u in
      if (String.eqb (NilZero.string_of_uint (N.to_uint n)) k
          && (n <? 2 ^ 32 - 1)%N)%bool
      then Some n else None
  | None => None
  end.

Definition isIndex (k : string) : bool :=
  match arrayIndex k with Some _ => true | None => false end.

Definition indexAfter (a b : string) : bool :=
  match arrayIndex a, arrayIndex b with
  | Some m, Some n => (n <? m)%N
  | _, _ => false
  end.

(** [Object.keys]: array indices in ascending order, then the other keys in
    creation order. *)
Definition Object_keys (g : Groups) : list string :=
  sort indexAfter (filter isIndex (map fst g))
    ++ filter (fun k => negb (isIndex k)) (map fst g).

(** The comparator of [sortedDates], on the keys themselves. *)
Definition keyAfter (a b : string) : bool :=
  match Date_getTime (Some (JStr b)), Date_getTime (Some (JStr a)) with
  | Some tb, Some ta => 0 <? tb - ta
  | _, _ => false
  end.

Definition sortedDates (g : Groups) : list string :=
  sort keyAfter (Object_keys g).

(** The expenses in the order the list renders them:
    [sortedDates.map(date => groupedExpenses[date].map(...))], flattened. *)
Definition bucketOf (g : Groups) (k : string) : list item :=
  match getBucket k g with Some b => b | None => [] end.

Definition renderedExpenses (g : Groups) : list item :=
  flat_map (bucketOf g) (sortedDates g).

(** The records filed under the key [k]. *)
Definition keyed (k : string) (x : item) : bool :=
  String.eqb (keyOf (dateOf x)) k.

Definition allRecords (g : Groups) : list item := List.concat (map snd g).

(** What the reducer has built after filing the records [done]. *)
Record Filed (done : list item) (g : Groups) : Prop := {
  filed_keys : NoDup (map fst g);
  filed_bucket : forall k, bucketOf g k = filter (keyed k) done;
  filed_all : Permutation (allRecords g) done
}.

(** *** Well-formed records *)

(** The time value of a record's date; [None] is [NaN]. *)
Definition timeOf (x : item) : option Z := Date_getTime (dateOf x).

(** The record's [date] is a string the host parses as a date. *)
Definition wellDated (x : item) : bool :=
  match dateOf x with
  | Some (JStr s) =>
      match Date_getTime (Some (JStr s)) with Some _ => true | None => false end
  | _ => false
  end.

(** [a] is listed no later than [b] in descending date order. *)
Definition dateDesc (a b : item) : Prop :=
  exists ta tb, timeOf a = Some ta /\ timeOf b = Some tb /\ tb <= ta.

(** The records of one date: those with a given time value ([None]: those
    whose date does not parse), and those with a given date string. *)
Definition sameTime (t : option Z) (x : item) : bool :=
  match timeOf x, t with
  | Some a, Some b => a =? b
  | None, None => true
  | _, _ => false
  end.

Definition onDate (d : string) (x : item) : bool :=
  match dateOf x with
  | Some (JStr s) => String.eqb s d
  | _ => false
  end.

End App.

(* ================================================================= *)
(** ** A host for the examples *)

(** Dates in the form the application itself writes
    ([toISOString().split('T')[0]], that is [YYYY-MM-DD]) are read as
    midnight UTC of that day. The examples below apply [isoGetTime] to such
    strings, to the empty string and to a missing [date] only; on those
    every engine returns the same time value, or [NaN]. *)
Definition digit (c : ascii) : option Z :=
  let n := Z.of_nat (nat_of_ascii c) in
  if (48 <=? n) && (n <=? 57) then Some (n - 48) else None.

Fixpoint digits (acc : Z) (l : list ascii) : option Z :=
  match l with
  | [] => Some acc
  | c :: l' =>
      match digit c with
      | Some d => digits (10 * acc + d) l'
      | None => None
      end
  end.

Definition isLeap (y : Z) : bool :=
  ((y mod 4 =? 0) && negb (y mod 100 =? 0)) || (y mod 400 =? 0).

Definition daysInMonth (y m : Z) : Z :=
  if m =? 2 then (if isLeap y then 29 else 28)
  else if (m =? 4) || (m =? 6) || (m =? 9) || (m =? 11) then 30 else 31.

(** Days from 1970-01-01 to the civil date [y]-[m]-[d]. *)
Definition daysFromCivil (y m d : Z) : Z :=
  let y' := if m <=? 2 then y - 1 else y in
  let era := y' / 400 in
  let yoe := y' - era * 400 in
  let doy := (153 * (if 2 <? m then m - 3 else m + 9) + 2) / 5 + d - 1 in
  let doe := yoe * 365 + yoe / 4 - yoe / 100 + doy in
  era * 146097 + doe - 719468.

Definition parseISO (s : string) : option (Z * Z * Z) :=
  match list_ascii_of_string s with
  | [y1; y2; y3; y4; "-"%char; m1; m2; "-"%char; d1; d2] =>
      match digits 0 [y1; y2; y3; y4], digits 0 [m1; m2], digits 0 [d1; d2] with
      | Some y, Some m, Some d =>
          if (1 <=? m) && (m <=? 12) && (1 <=? d) && (d <=? daysInMonth y m)
          then Some (y, m, d) else None
      | _, _, _ => None
      end
  | _ => None
  end.

Definition isoGetTime (v : option json) : option Z :=
  match v with
  | Some (JStr s) =>
      match parseISO s with
      | Some (y, m, d) => Some (daysFromCivil y m d * 86400000)
      | None => None
      end
  | _ => None
  end.

(** The examples hold records whose [date] is a string or missing, so the
    coercion of other values to a key is never called in them. *)
Definition plainToString (j : json) : string :=
  match j with
  | JNull => "null"
  | JBool true => "true"
  | JBool false => "false"
  | _ => "[object Object]"
  end.

(** A record with the fields of an [Expense]. *)
Definition expenseRecord (id date label : string) (amount : Q) (payer : string)
  : item :=
  IObj [("id", JStr id); ("date", JStr date); ("item", JStr label);
        ("amount", JNum amount); ("category", JStr "Other");
        ("payer", JStr payer); ("createdAt", JNum 0)].

Definition idle (es : list item) : State :=
  mkState es false None false false [].

(* ================================================================= *)
(** ** Expense-shaped payloads *)

Definition isString (v : option json) : bool :=
  match v with Some (JStr _) => true | _ => false end.
Definition isNumber (v : option json) : bool :=
  match v with Some (JNum _) => true | _ => false end.
Definition isPresent (v : option json) : bool :=
  match v with Some _ => true | None => false end.

(** A record with the fields of an [Expense] (section 3 of the
    specification): string identifier, date and label, numeric amount and
    creation time, a category and a payer. *)
Definition expenseShaped (j : json) : bool :=
  match j with
  | JObj fs =>
      isString (getOwn "id" fs) && isString (getOwn "date" fs)
      && isString (getOwn "item" fs) && isNumber (getOwn "amount" fs)
      && isPresent (getOwn "category" fs) && isPresent (getOwn "payer" fs)
      && isNumber (getOwn "createdAt" fs)
  | _ => false
  end.

(** A collection of expense-shaped records. *)
Definition collectionOfExpenses (j : json) : bool :=
  match j with
  | JArr l => forallb expenseShaped l
  | _ => false
  end.

(** *** Sample data *)

Definition twoStored : list item :=
  [ expenseRecord "1" "2024-01-10" "Grocery Run" 100 "A";
    expenseRecord "2" "2024-01-10" "Dinner Date" 50 "B" ].

Definition fiveCandidates : list item :=
  [ expenseRecord "1" "2024-01-10" "Grocery Run" 100 "A";
    expenseRecord "3" "2024-01-12" "Taxi" 20 "A";
    expenseRecord "2" "2024-01-10" "Dinner Date" 50 "B";
    expenseRecord "4" "2024-01-08" "Cinema" 30 "B";
    expenseRecord "5" "2024-01-12" "Books" 40 "A" ].

(** Two candidates with one identifier. *)
Definition twins : list item :=
  [ expenseRecord "a" "2024-01-10" "Lunch" 10 "A";
    expenseRecord "a" "2024-01-11" "Lunch again" 12 "B" ].

(** A draft with its payer, as the edit surface hands it to
    [handleSaveExpense]. *)
Definition lunchDraft : draft :=
  [("date", JStr "2024-01-10"); ("item", JStr "Lunch"); ("amount", JNum 10);
   ("category", JStr "Food"); ("payer", JStr "A")].

(* ================================================================= *)
(** ** Balance Aggregator *)

(** The summary is computed by the [SummaryHeader] component, which
    [App] only renders ([<SummaryHeader expenses={expenses}
    currentMonth={new Date()} ... />]); its code is not part of the sources
    at hand. *)
Module BalanceAggregator.

(** Modelled from the spec: the party identifiers ([UserID] of
    [types.ts], missing), "exactly two party identifiers". *)
Inductive UserID : Type := A | B.

(** Modelled from the spec: telling the two party identifiers apart. *)
Definition UserID_eqb (p q : UserID) : bool :=
  match p, q with
  | A, A | B, B => true
  | _, _ => false
  end.

(** Modelled from the spec: a calendar date, "day granularity, no
    time-of-day". *)
Record CalendarDate : Type := mkDate { year : Z; month : Z; day : Z }.

(** Modelled from the spec: the fields of an Expense the aggregator reads
    (section 3: calendar date, amount as a non-negative decimal, payer). *)
Record Expense : Type := mkExpense {
  id : string;
  date : CalendarDate;
  amount : Q;
  payer : UserID
}.

(** Modelled from the spec: the "reference month", a month of a year. *)
Record Month : Type := mkMonth { refYear : Z; refMonth : Z }.

(** Modelled from the spec: "calendar-month match on the date field". *)
Definition inMonth (m : Month) (e : Expense) : bool :=
  (year (date e) =? refYear m) && (month (date e) =? refMonth m).

(** Modelled from the spec: "total spent by each party within the reference
    month", accumulated over the collection from the left. *)
Definition addExpense (m : Month) (p : UserID) (acc : Q) (e : Expense) : Q :=
  if inMonth m e && UserID_eqb (payer e) p then (acc + amount e)%Q else acc.

(** Modelled from the spec: a party's total, from an empty sum. *)
Definition partyTotal (m : Month) (p : UserID) (es : list Expense) : Q :=
  fold_left (addExpense m p) es 0%Q.

(** Modelled from the spec: what the aggregator returns, the two totals and
    "the net balance". *)
Record Summary : Type := mkSummary {
  totalA : Q;
  totalB : Q;
  balance : Q
}.

(** Modelled from the spec: the Balance Aggregator of section 4.2, "given
    the full expense collection, a reference month, and the two party
    identifiers"; the balance is "(partyA total - partyB total) / 2". *)
Definition summarize (es : list Expense) (m : Month) (partyA partyB : UserID)
  : Summary :=
  let a := partyTotal m partyA es in
  let b := partyTotal m partyB es in
  mkSummary a b ((a - b) / 2)%Q.

(** Modelled from the spec: the amounts of the expenses a party paid "within
    the reference month", in the order of the collection. *)
Definition paidIn (m : Month) (p : UserID) (es : list Expense) : list Q :=
  map amount (filter (fun e => inMonth m e && UserID_eqb (payer e) p) es).

(** The sum of a list of amounts. *)
Definition sumQ (l : list Q) : Q := fold_right Qplus 0%Q l.

(** Days since 1970-01-01, to tell a calendar month from a window of days. *)
Definition dayNumber (d : CalendarDate) : Z :=
  daysFromCivil (year d) (month d) (day d).

End BalanceAggregator.

(* ================================================================= *)
(** ** Events *)

(** [setIsSettingsOpen], for the settings button and the [onClose] of
    [SettingsModal]. *)
Definition setIsSettingsOpen (b : bool) (s : State) : State :=
  mkState (expenses s) (isAnalyzing s) (draftExpense s) (isModalOpen s)
          b (alerts s).

(** The callbacks [App] hands to the page: the two "add" buttons, the file
    input, the reader's [onloadend], the [onSave] and [onClose] of the edit
    surface, the settings button, and the [onClose] and [onImportData] of
    the settings surface. ([onSaveSettings] is [setSettings], which touches
    none of the cells of [State].) *)
Inductive Event : Type :=
| ManualAdd (today : string) (other : json)
| FileChange (file setupThrows : bool)
| LoadEnd (outcome : AnalysisOutcome)
| SaveExpense (now1 now2 : Z) (finalData : draft)
| CloseModal
| OpenSettings
| CloseSettings
| ImportData (parsed : option json).

Section Dispatch.

Variable Date_getTime : option json -> option Z.

(** The handler an event runs. No guard of the page is modelled (a disabled
    button, a surface that is not shown): every event may come in every
    state. *)
Definition dispatch (s : State) (ev : Event) : State :=
  match ev with
  | ManualAdd today other => handleManualAdd today other s
  | FileChange file setupThrows => handleFileChange file setupThrows s
  | LoadEnd outcome => onloadend outcome s
  | SaveExpense now1 now2 finalData =>
      handleSaveExpense Date_getTime now1 now2 finalData s
  | CloseModal => onClose s
  | OpenSettings => setIsSettingsOpen true s
  | CloseSettings => setIsSettingsOpen false s
  | ImportData parsed => handleImportData Date_getTime parsed s
  end.

(** The state after a sequence of events. *)
Definition run (evs : list Event) (s : State) : State :=
  fold_left dispatch evs s.

(** The records an event puts in front of the store. *)
Definition added (s : State) (ev : Event) : list item :=
  match ev with
  | SaveExpense now1 now2 finalData => [newExpense now1 now2 finalData]
  | ImportData (Some (JArr importedData)) =>
      match asItems importedData with
      | Some candidates => newItems s candidates
      | None => []
      end
  | _ => []
  end.

(** The records a sequence of events has put in front of the store, the
    latest first. *)
Fixpoint addedBy (evs : list Event) (s : State) : list item :=
  match evs with
  | [] => []
  | ev :: evs' => addedBy evs' (dispatch s ev) ++ added s ev
  end.

End Dispatch.

(** Whether an event is a save, or an import of an array free of [null]. *)
Definition touchesStore (ev : Event) : bool :=
  match ev with
  | SaveExpense _ _ _ => true
  | ImportData (Some (JArr l)) =>
      match asItems l with Some _ => true | None => false end
  | _ => false
  end.

(* ================================================================= *)
(** ** Identifiers *)

(** No two records of the list have identifiers that [Set] holds equal. *)
Fixpoint uniqueIds (l : list item) : bool :=
  match l with
  | [] => true
  | x :: l' => negb (setHas (map idOf l') (idOf x)) && uniqueIds l'
  end.

(** The record was saved at a clock reading before [t]: its identifier is
    the decimal form of such a reading. *)
Definition savedBefore (t : Z) (x : item) : Prop :=
  exists t', t' < t /\ idOf x = Some (JStr (Number_toString t')).

(** The own properties of the expense [handleSaveExpense] builds. *)
Definition newExpenseFields (now1 now2 : Z) (finalData : draft)
  : list (string * json) :=
  setOwn "createdAt" (JNum (inject_Z now2))
    (spread finalData [("id", JStr (Number_toString now1))]).

(** [expenses.length === 0], the test of the "No expenses yet" card. *)
Definition emptyState (s : State) : bool :=
  match expenses s with [] => true | _ => false end.

(** Every own bucket of [groups] holds a record. *)
Definition bucketsFilled (g : Groups) : Prop :=
  forall k b, getBucket k g = Some b -> b <> [].

Section KeyOrder.

Variable Date_getTime : option json -> option Z.

(** The heading [a] is for a date no earlier than that of the heading
    [b]. *)
Definition keyDesc (a b : string) : Prop :=
  exists ta tb,
    Date_getTime (Some (JStr a)) = Some ta
    /\ Date_getTime (Some (JStr b)) = Some tb /\ tb <= ta.

End KeyOrder.

(** *** Sample data *)

(** A manual add that is saved, then an import and a text that does not
    parse. *)
Definition sampleEvents : list Event :=
  [ ManualAdd "2024-01-15" (JStr "Other");
    SaveExpense 1700000000000 1700000000001 lunchDraft;
    CloseModal;
    ImportData (Some (JArr (map toJson fiveCandidates)));
    ImportData None ].

(** The groups of [fiveCandidates]. *)
Definition fiveGroups : Groups :=
  Eval vm_compute in
    match groupedExpenses plainToString fiveCandidates with
    | Some g => g
    | None => []
    end.

(* ================================================================= *)
(** ** Shapes *)

(** A stored value that is an expense-shaped record. *)
Definition shapedItem (x : item) : bool := expenseShaped (toJson x).

(** A draft with its payer, as [handleSaveExpense] expects it: date and
    label are strings, the amount is a number, category and payer are
    there; an [id] of its own, if any, is a string. *)
Definition draftShaped (d : draft) : bool :=
  isString (getOwn "date" d) && isString (getOwn "item" d)
  && isNumber (getOwn "amount" d)
  && isPresent (getOwn "category" d) && isPresent (getOwn "payer" d)
  && match getOwn "id" d with
     | None | Some (JStr _) => true
     | Some _ => false
     end.

(** An event that brings only expense-shaped data: a save of a shaped draft
    (an object, each key once), an import whose payload, if it is an
    array, holds expense-shaped records only. *)
Definition shapedEvent (ev : Event) : Prop :=
  match ev with
  | SaveExpense _ _ finalData =>
      NoDup (map fst finalData) /\ draftShaped finalData = true
  | ImportData (Some (JArr l)) => forallb expenseShaped l = true
  | _ => True
  end.

(** The groups of [twoStored]. *)
Definition twoGroups : Groups :=
  Eval vm_compute in
    match groupedExpenses plainToString twoStored with
    | Some g => g
    | None => []
    end.

(** The records [sampleEvents] add to [twoStored]. *)
Definition sampleAdded : list item :=
  Eval vm_compute in addedBy isoGetTime sampleEvents (idle twoStored).

(** The record's [date] is missing or a primitive value (a string, a
    number, a boolean or [null]): using it as a property key cannot throw.
    An object or an array has to be converted by its own [toString] and
    [valueOf], which can. *)
Definition primitiveDate (x : item) : bool :=
  match dateOf x with
  | Some (JArr _) | Some (JObj _) => false
  | _ => true
  end.
(* ================================================================= *)
(** * Properties *)

(** *** Facts about the sort that hold for every comparator *)
Section SortFacts.
Context {A : Type}.
Variable after : A -> A -> bool.

Lemma insert_perm (x : A) (l : list A) :
  Permutation (x :: l) (insert after x l).
Proof.
  induction l as [|y l IH]; simpl; [apply Permutation_refl|].
  destruct (after x y); [|apply Permutation_refl].
  eapply perm_trans; [apply perm_swap|]. now apply perm_skip.
Qed.

Lemma sort_perm (l : list A) : Permutation l (sort after l).
Proof.
  induction l as [|x l IH]; simpl; [constructor|].
  eapply perm_trans; [apply perm_skip, IH | apply insert_perm].
Qed.

Lemma sort_length (l : list A) : List.length (sort after l) = List.length l.
Proof. symmetry. apply Permutation_length, sort_perm. Qed.

Lemma sort_In (x : A) (l : list A) : In x (sort after l) <-> In x l.
Proof.
  split; intro H.
  - eapply Permutation_in; [apply Permutation_sym, sort_perm | exact H].
  - eapply Permutation_in; [apply sort_perm | exact H].
Qed.

(** A list with no adjacent pair out of order is left as it is. *)
Lemma sort_fixed (l : list A) : Sorted (notAfter after) l -> sort after l = l.
Proof.
  induction 1 as [|a l Hs IH Hhd]; simpl; [reflexivity|].
  rewrite IH. destruct Hhd as [|b l' Hab]; simpl; [reflexivity|].
  unfold notAfter in Hab. now rewrite Hab.
Qed.

(** Stability: elements among which the comparator never asks for a swap
    keep their relative order. *)
Lemma insert_filter (P : A -> bool) (x : A) (l : list A) :
  (forall y, P x = true -> after x y = true -> P y = false) ->
  filter P (insert after x l) = filter P (x :: l).
Proof.
  intros HP. induction l as [|y l IH]; [reflexivity|].
  simpl insert. destruct (after x y) eqn:Hxy; [|reflexivity].
  simpl in *. rewrite IH.
  destruct (P x) eqn:Hx; [|reflexivity].
  now rewrite (HP y eq_refl Hxy).
Qed.

Lemma sort_filter (P : A -> bool) (l : list A) :
  (forall x y, P x = true -> after x y = true -> P y = false) ->
  filter P (sort after l) = filter P l.
Proof.
  intros HP. induction l as [|x l IH]; [reflexivity|].
  simpl sort. rewrite insert_filter by (intro y; apply HP).
  simpl. now rewrite IH.
Qed.

Section Asymmetric.

Hypothesis after_asym : forall a b, after a b = true -> after b a = false.

Lemma insert_HdRel (a x : A) (l : list A) :
  notAfter after a x -> HdRel (notAfter after) a l ->
  HdRel (notAfter after) a (insert after x l).
Proof.
  intros Hax Hal. destruct l as [|y l]; simpl; [now constructor|].
  destruct (after x y); constructor; [|exact Hax].
  now inversion Hal.
Qed.

Lemma insert_sorted (x : A) (l : list A) :
  Sorted (notAfter after) l -> Sorted (notAfter after) (insert after x l).
Proof.
  induction 1 as [|y l Hs IH Hhd]; simpl.
  - repeat constructor.
  - destruct (after x y) eqn:Hxy.
    + constructor; [exact IH|].
      apply insert_HdRel; [now apply after_asym | exact Hhd].
    + constructor; [now constructor|]. now constructor.
Qed.

(** Whatever the comparator may be, provided it never asks for both [a]
    after [b] and [b] after [a], no adjacent pair of the result is out of
    order. *)
Lemma sort_sorted (l : list A) : Sorted (notAfter after) (sort after l).
Proof.
  induction l as [|x l IH]; simpl; [constructor | now apply insert_sorted].
Qed.

Lemma sort_idem (l : list A) : sort after (sort after l) = sort after l.
Proof. apply sort_fixed, sort_sorted. Qed.

End Asymmetric.

End SortFacts.



(* ================================================================= *)
(** ** The store: sorting by date *)

Section AppFacts.

Variable Date_getTime : option json -> option Z.

Local Abbreviation after := (after Date_getTime).
Local Abbreviation sortByDate := (sortByDate Date_getTime).
Local Abbreviation timeOf := (timeOf Date_getTime).
Local Abbreviation wellDated := (wellDated Date_getTime).
Local Abbreviation dateDesc := (dateDesc Date_getTime).
Local Abbreviation sameTime := (sameTime Date_getTime).
Local Abbreviation handleImportData := (handleImportData Date_getTime).
Local Abbreviation handleSaveExpense := (handleSaveExpense Date_getTime).

Lemma after_spec (a b : item) :
  after a b = true <->
  exists ta tb, timeOf a = Some ta /\ timeOf b = Some tb /\ ta < tb.
Proof.
  unfold after, compareDates, timeOf.
  destruct (Date_getTime (dateOf b)) as [tb|], (Date_getTime (dateOf a)) as [ta|];
    split; intro H; try discriminate;
    try (destruct H as (x & y & Hx & Hy & _); discriminate).
  - exists ta, tb. repeat split. apply Z.ltb_lt in H. lia.
  - destruct H as (x & y & Hx & Hy & Hlt). inversion Hx; inversion Hy; subst.
    apply Z.ltb_lt. lia.
Qed.

Lemma after_asym (a b : item) : after a b = true -> after b a = false.
Proof.
  intro H. apply after_spec in H. destruct H as (ta & tb & Ha & Hb & Hlt).
  destruct (after b a) eqn:E; [|reflexivity].
  apply after_spec in E. destruct E as (x & y & Hx & Hy & Hlt').
  rewrite Hb in Hx. rewrite Ha in Hy. inversion Hx; inversion Hy; subst. lia.
Qed.

Lemma wellDated_time (x : item) :
  wellDated x = true -> exists t, timeOf x = Some t.
Proof.
  unfold wellDated, timeOf.
  destruct (dateOf x) as [[| | |s| |]|]; try discriminate.
  destruct (Date_getTime (Some (JStr s))) as [t|]; [eauto | discriminate].
Qed.

(** Among records whose dates parse, a list with no adjacent pair out of
    order is in descending date order throughout. *)
Lemma sorted_dateDesc (l : list item) :
  Forall (fun x => wellDated x = true) l ->
  Sorted (notAfter after) l -> StronglySorted dateDesc l.
Proof.
  induction l as [|a l IH]; intros Hv Hs; [constructor|].
  inversion Hv as [|? ? Ha Hl]; subst. inversion Hs as [|? ? Hs' Hhd]; subst.
  specialize (IH Hl Hs'). constructor; [exact IH|].
  destruct (wellDated_time a Ha) as [ta Hta].
  destruct l as [|b l]; [constructor|].
  inversion Hhd as [|? ? Hab]; subst.
  inversion Hl as [|? ? Hb Hl']; subst.
  destruct (wellDated_time b Hb) as [tb Htb].
  assert (Hle : tb <= ta).
  { destruct (Z.le_gt_cases tb ta) as [|Hgt]; [assumption|].
    unfold notAfter in Hab.
    assert (after a b = true) as E
      by (apply after_spec; exists ta, tb; repeat split; auto; lia).
    congruence. }
  constructor.
  - exists ta, tb. auto.
  - inversion IH as [|? ? _ Hall]; subst.
    eapply Forall_impl; [|exact Hall].
    intros x (tb' & tx & Hb' & Hx & Hle').
    rewrite Htb in Hb'. inversion Hb'; subst.
    exists ta, tx. repeat split; auto. lia.
Qed.

Lemma sortByDate_perm (l : list item) : Permutation l (sortByDate l).
Proof. apply sort_perm. Qed.

Lemma sortByDate_sorted (l : list item) :
  Sorted (notAfter after) (sortByDate l).
Proof. apply sort_sorted, after_asym. Qed.


Lemma sortByDate_desc (l : list item) :
  Forall (fun x => wellDated x = true) l ->
  StronglySorted dateDesc (sortByDate l).
Proof.
  intro Hv. apply sorted_dateDesc; [|apply sortByDate_sorted].
  apply Forall_forall. intros x Hx. rewrite Forall_forall in Hv.
  apply Hv. exact (proj1 (sort_In after x l) Hx).
Qed.

(** Records that share a time value (or all have none) are never swapped. *)
Lemma sortByDate_stable (t : option Z) (P : item -> bool) (l : list item) :
  (forall x, P x = true -> timeOf x = t) ->
  filter P (sortByDate l) = filter P l.
Proof.
  intro HP. apply sort_filter. intros x y Hx Hxy.
  destruct (P y) eqn:Hy; [|reflexivity].
  apply after_spec in Hxy. destruct Hxy as (tx & ty & Htx & Hty & Hlt).
  rewrite (HP x Hx) in Htx. rewrite (HP y Hy) in Hty.
  rewrite Htx in Hty. inversion Hty. lia.
Qed.

Lemma asItems_toJson (l : list item) : asItems (map toJson l) = Some l.
Proof.
  induction l as [|x l IH]; [reflexivity|].
  simpl. rewrite IH. now destruct x.
Qed.


(* ================================================================= *)
(** ** The store: import and save *)

Lemma filter_negb_length {X : Type} (f : X -> bool) (l : list X) :
  (List.length (filter (fun x => negb (f x)) l) + List.length (filter f l)
   = List.length l)%nat.
Proof.
  induction l as [|x l IH]; [reflexivity|].
  simpl. destruct (f x); simpl; lia.
Qed.

Lemma filter_none {X : Type} (f : X -> bool) (l : list X) :
  (forall x, In x l -> f x = false) -> filter f l = [].
Proof.
  induction l as [|x l IH]; intro H; [reflexivity|].
  simpl. rewrite (H x (or_introl eq_refl)). apply IH.
  intros y Hy. apply H. now right.
Qed.

Lemma handleImportData_array (s : State) (candidates : list item) :
  handleImportData (Some (JArr (map toJson candidates))) s
  = alert (AlertImported (List.length (newItems s candidates)))
      (setExpenses (sortByDate (newItems s candidates ++ expenses s)) s).
Proof. unfold handleImportData. now rewrite asItems_toJson. Qed.

(** C1. [handleImportData] on an array of candidates: the identifiers of the
    store are collected, the candidates whose identifier is among them are
    dropped, the others are put before the stored records and the whole is
    sorted by the date comparator (a permutation with no adjacent pair out
    of order, in descending date order when every date parses); the alert
    carries the number of admitted candidates. With 5 candidates of which 2
    have a known identifier, 3 are admitted, 3 is reported and the store
    grows by 3. *)
Theorem importMerge_admits_new (s : State) (candidates : list item) :
  let known := fun e => setHas (map idOf (expenses s)) (idOf e) in
  let admitted := filter (fun e => negb (known e)) candidates in
  let s' := handleImportData (Some (JArr (map toJson candidates))) s in
  (expenses s' = sortByDate (admitted ++ expenses s)
   /\ (forall e, In e admitted <-> In e candidates /\ known e = false)
   /\ Permutation (admitted ++ expenses s) (expenses s')
   /\ Sorted (notAfter after) (expenses s')
   /\ (Forall (fun x => wellDated x = true) (candidates ++ expenses s) ->
       StronglySorted dateDesc (expenses s'))
   /\ alerts s' = alerts s ++ [AlertImported (List.length admitted)]
   /\ List.length admitted + List.length (filter known candidates)
      = List.length candidates
   /\ List.length (expenses s')
      = List.length (expenses s) + List.length admitted
   /\ (List.length candidates = 5 ->
       List.length (filter known candidates) = 2 ->
       List.length admitted = 3
       /\ alerts s' = alerts s ++ [AlertImported 3]
       /\ List.length (expenses s') = List.length (expenses s) + 3))%nat.
Proof.
  intros known admitted s'.
  assert (Hs' : s' = alert (AlertImported (List.length admitted))
                       (setExpenses (sortByDate (admitted ++ expenses s)) s))
    by apply handleImportData_array.
  assert (Hlen : (List.length admitted + List.length (filter known candidates)
                  = List.length candidates)%nat)
    by apply filter_negb_length.
  assert (Hsize : (List.length (expenses s')
                   = List.length (expenses s) + List.length admitted)%nat).
  { rewrite Hs'. simpl. unfold sortByDate.
    rewrite sort_length, length_app. lia. }
  rewrite Hs' in Hsize |- *. simpl in Hsize |- *.
  split; [reflexivity|].
  split; [intro e; unfold admitted; rewrite filter_In, negb_true_iff; tauto|].
  split; [apply sortByDate_perm|].
  split; [apply sortByDate_sorted|].
  split.
  { intro Hv. apply sortByDate_desc.
    apply Forall_app in Hv. destruct Hv as [Hc Hst].
    apply Forall_app. split; [|exact Hst].
    apply Forall_forall. intros x Hx. rewrite Forall_forall in Hc.
    apply Hc. apply filter_In in Hx. tauto. }
  split; [reflexivity|].
  split; [exact Hlen|].
  split; [exact Hsize|].
  intros H5 H2.
  assert (H3 : List.length admitted = 3%nat) by lia.
  rewrite H3 in Hsize |- *. auto.
Qed.


Lemma setHas_true (ids : list (option json)) (v : option json) :
  setHas ids v = true <-> exists w, In w ids /\ sameValueZero v w = true.
Proof. unfold setHas. apply existsb_exists. Qed.





(** C7. [handleSaveExpense] puts the new expense in front of the collection
    and sorts the whole by the date comparator: the result holds the old
    records and the new one, with no adjacent pair out of order, and is in
    descending date order when every date parses. *)
Theorem add_inserts_then_sorts (now1 now2 : Z) (finalData : draft) (s : State) :
  let e := newExpense now1 now2 finalData in
  let s' := handleSaveExpense now1 now2 finalData s in
  expenses s' = sortByDate (e :: expenses s)
  /\ Permutation (e :: expenses s) (expenses s')
  /\ Sorted (notAfter after) (expenses s')
  /\ (Forall (fun x => wellDated x = true) (e :: expenses s) ->
      StronglySorted dateDesc (expenses s')).
Proof.
  intros e s'. unfold s', handleSaveExpense. cbn [expenses setDraftExpense setIsModalOpen setExpenses]. fold e.
  split; [reflexivity|].
  split; [apply sortByDate_perm|].
  split; [apply sortByDate_sorted|].
  apply sortByDate_desc.
Qed.

Lemma sameTime_time (t : option Z) (x : item) :
  sameTime t x = true -> timeOf x = t.
Proof.
  unfold sameTime. destruct (timeOf x) as [a|], t as [b|];
    intro H; try discriminate; [|reflexivity].
  apply Z.eqb_eq in H. now subst.
Qed.

Lemma onDate_time (d : string) (x : item) :
  onDate d x = true -> timeOf x = Date_getTime (Some (JStr d)).
Proof.
  unfold onDate, timeOf. destruct (dateOf x) as [[| | |s| |]|];
    intro H; try discriminate.
  apply String.eqb_eq in H. now subst.
Qed.

(** C10. A save and an import put the new records in front of the stored
    ones and sort by a comparator that reads nothing but the [date] of its
    arguments. When every record that reaches the sort has a date that
    parses (the comparator is then consistent and the sort, being stable,
    has one possible result), the records of any one date (taken by time
    value or by date string) are afterwards the new records of that date,
    in the order they were given, followed by the stored records of that
    date in the order they had. *)
Theorem new_records_lead_their_date (s : State) :
  (exists cmp, forall a b,
      compareDates Date_getTime a b = cmp (dateOf a) (dateOf b))
  /\ (forall now1 now2 finalData t d,
      let e := newExpense now1 now2 finalData in
      let s' := handleSaveExpense now1 now2 finalData s in
      Forall (fun x => wellDated x = true) ([e] ++ expenses s) ->
      expenses s' = sortByDate ([e] ++ expenses s)
      /\ StronglySorted dateDesc (expenses s')
      /\ filter (sameTime t) (expenses s')
         = filter (sameTime t) [e] ++ filter (sameTime t) (expenses s)
      /\ filter (onDate d) (expenses s')
         = filter (onDate d) [e] ++ filter (onDate d) (expenses s))
  /\ (forall candidates t d,
         let s' := handleImportData (Some (JArr (map toJson candidates))) s in
         Forall (fun x => wellDated x = true)
           (newItems s candidates ++ expenses s) ->
         expenses s' = sortByDate (newItems s candidates ++ expenses s)
         /\ StronglySorted dateDesc (expenses s')
         /\ filter (sameTime t) (expenses s')
            = filter (sameTime t) (newItems s candidates)
                ++ filter (sameTime t) (expenses s)
         /\ filter (onDate d) (expenses s')
            = filter (onDate d) (newItems s candidates)
                ++ filter (onDate d) (expenses s)).
Proof.
  split.
  { exists (fun da db =>
              match Date_getTime db, Date_getTime da with
              | Some tb, Some ta => Some (tb - ta)
              | _, _ => None
              end).
    reflexivity. }
  split.
  - intros now1 now2 finalData t d e s' Hv.
    unfold s', handleSaveExpense.
    cbn [expenses setDraftExpense setIsModalOpen setExpenses]. fold e.
    change (e :: expenses s) with ([e] ++ expenses s).
    rewrite <- !filter_app. split; [reflexivity|].
    split; [now apply sortByDate_desc|]. split.
    + apply (sortByDate_stable t). apply sameTime_time.
    + apply (sortByDate_stable (Date_getTime (Some (JStr d)))).
      apply onDate_time.
  - intros candidates t d s' Hv. unfold s'. rewrite handleImportData_array.
    cbn [expenses alert setExpenses].
    rewrite <- !filter_app. split; [reflexivity|].
    split; [now apply sortByDate_desc|]. split.
    + apply (sortByDate_stable t). apply sameTime_time.
    + apply (sortByDate_stable (Date_getTime (Some (JStr d)))).
      apply onDate_time.
Qed.


(* ================================================================= *)
(** ** Import: parse failures and payloads that are not arrays *)

(** C5 (as amended). The import leaves the whole state as it was, but for
    an error alert, when the text does not parse, when the parsed value is
    not an array, and when an element of the array is [null]. The store
    changes only when the text parses to an array free of [null]; the
    elements of such an array are merged whatever their shape. *)
Theorem import_rejects_unparsed_and_non_arrays (parsed : option json) (s : State) :
  let s' := handleImportData parsed s in
  (parsed = None -> s' = alert AlertParseFailed s)
  /\ (forall v, parsed = Some v -> isArray v = false ->
      s' = alert AlertInvalidFormat s)
  /\ (forall l, parsed = Some (JArr l) -> asItems l = None ->
      s' = alert AlertParseFailed s)
  /\ (expenses s' <> expenses s ->
      exists l candidates,
        parsed = Some (JArr l) /\ asItems l = Some candidates
        /\ alerts s' = alerts s
                         ++ [AlertImported (List.length (newItems s candidates))]).
Proof.
  intro s'. unfold s'. repeat apply conj.
  - now intros ->.
  - intros v -> Hv. now destruct v.
  - intros l -> Hl. unfold handleImportData. now rewrite Hl.
  - intro Hneq. destruct parsed as [[| | | |l|]|]; simpl in Hneq; try tauto.
    unfold handleImportData in *.
    destruct (asItems l) as [candidates|] eqn:Hl; simpl in Hneq; [|tauto].
    now exists l, candidates.
Qed.

End AppFacts.

(* ================================================================= *)
(** ** The draft flow *)

Lemma onClose_frame (s : State) :
  expenses (onClose s) = expenses s
  /\ draftExpense (onClose s) = draftExpense s
  /\ isModalOpen (onClose s) = false
  /\ isAnalyzing (onClose s) = isAnalyzing s
  /\ alerts (onClose s) = alerts s.
Proof. repeat split. Qed.

(** C8. Closing the edit surface leaves the store as it was before the
    draft was started and hides the surface, but the draft is not
    discarded: [draftExpense] still holds it, whether it came from a
    manual add or from a receipt, whereas a save resets it to [null]. *)
Theorem close_keeps_the_draft (today : string) (other : json) (result : draft)
    (s : State) :
  let manual := handleManualAdd today other s in
  let scanned := onloadend (Resolved result) s in
  expenses (onClose manual) = expenses s
  /\ expenses (onClose scanned) = expenses s
  /\ isModalOpen (onClose manual) = false
  /\ isModalOpen (onClose scanned) = false
  /\ draftExpense (onClose manual) = draftExpense manual
  /\ draftExpense (onClose manual) <> None
  /\ draftExpense (onClose scanned) = Some result
  /\ (forall host now1 now2 finalData,
         draftExpense (handleSaveExpense host now1 now2 finalData manual) = None).
Proof. repeat split. discriminate. Qed.

(** C9. When [analyzeReceipt] rejects, nothing recovers: the state stays
    as [handleFileChange] left it, busy, and no alert is raised. No draft
    is created. *)
Theorem rejected_analysis_stays_busy (s : State) :
  let busy := handleFileChange true false s in
  let s' := onloadend Rejected busy in
  isAnalyzing s' = true
  /\ alerts s' = alerts s
  /\ draftExpense s' = draftExpense s
  /\ isModalOpen s' = isModalOpen s.
Proof. repeat split. Qed.

(** The only failure [handleFileChange] recovers from is one raised while
    the reader is set up, before the analysis is even called. *)
Lemma setup_failure_recovered (s : State) :
  let s' := handleFileChange true true s in
  isAnalyzing s' = false
  /\ alerts s' = alerts s ++ [AlertImageFailed]
  /\ draftExpense s' = draftExpense s.
Proof. repeat split. Qed.

(** Whatever the analysis does, the callback raises no alert. *)
Lemma onloadend_never_alerts (outcome : AnalysisOutcome) (s : State) :
  alerts (onloadend outcome s) = alerts s.
Proof. now destruct outcome. Qed.

(* ================================================================= *)
(** ** Grouping by date *)

Section GroupFacts.

Variable Date_getTime : option json -> option Z.
Variable ToString : json -> string.

Local Abbreviation keyOf := (keyOf ToString).
Local Abbreviation groupStep := (groupStep ToString).
Local Abbreviation groupedExpenses := (groupedExpenses ToString).
Local Abbreviation sortedDates := (sortedDates Date_getTime).
Local Abbreviation renderedExpenses := (renderedExpenses Date_getTime).
Local Abbreviation wellDated := (wellDated Date_getTime).
Local Abbreviation keyed := (keyed ToString).
Local Abbreviation Filed := (Filed ToString).

Lemma getBucket_pushTo (k d : string) (x : item) (g : Groups) :
  getBucket k (pushTo d x g)
  = if String.eqb k d
    then option_map (fun b => b ++ [x]) (getBucket k g)
    else getBucket k g.
Proof.
  induction g as [|[k' b] g IH]; simpl.
  - now destruct (String.eqb k d).
  - destruct (String.eqb d k') eqn:Hd; simpl.
    + apply String.eqb_eq in Hd. subst k'.
      destruct (String.eqb k d); reflexivity.
    + destruct (String.eqb k k') eqn:Hk; [|exact IH].
      apply String.eqb_eq in Hk. subst k'.
      rewrite String.eqb_sym in Hd. now rewrite Hd.
Qed.

Lemma getBucket_new (k d : string) (g : Groups) :
  getBucket k (g ++ [(d, [])])
  = match getBucket k g with
    | Some b => Some b
    | None => if String.eqb k d then Some [] else None
    end.
Proof.
  induction g as [|[k' b] g IH]; simpl; [reflexivity|].
  now destruct (String.eqb k k').
Qed.

Lemma keys_pushTo (d : string) (x : item) (g : Groups) :
  map fst (pushTo d x g) = map fst g.
Proof.
  induction g as [|[k' b] g IH]; simpl; [reflexivity|].
  destruct (String.eqb d k'); simpl; [reflexivity | now rewrite IH].
Qed.

Lemma getBucket_None (k : string) (g : Groups) :
  getBucket k g = None -> ~ In k (map fst g).
Proof.
  induction g as [|[k' b] g IH]; simpl; [tauto|].
  destruct (String.eqb k k') eqn:Hk; [discriminate|].
  intros H [Heq|Hin]; [|now apply IH].
  subst k'. now rewrite String.eqb_refl in Hk.
Qed.

Lemma allRecords_pushTo (d : string) (x : item) (g : Groups) (b : list item) :
  getBucket d g = Some b ->
  Permutation (allRecords (pushTo d x g)) (allRecords g ++ [x]).
Proof.
  unfold allRecords. revert b.
  induction g as [|[k' b'] g IH]; simpl; intros b Hb; [discriminate|].
  destruct (String.eqb d k'); simpl.
  - rewrite <- !app_assoc. apply Permutation_app_head.
    apply Permutation_app_comm.
  - rewrite <- app_assoc. apply Permutation_app_head. eapply IH, Hb.
Qed.

Lemma allRecords_new (d : string) (g : Groups) :
  allRecords (g ++ [(d, [])]) = allRecords g.
Proof.
  unfold allRecords. rewrite map_app, concat_app. simpl. now rewrite app_nil_r.
Qed.

Lemma Filed_nil : Filed [] [].
Proof. split; simpl; auto; constructor. Qed.

Lemma filter_snoc {X : Type} (f : X -> bool) (l : list X) (x : X) :
  filter f (l ++ [x]) = filter f l ++ (if f x then [x] else []).
Proof. now rewrite filter_app. Qed.

Lemma groupStep_Filed (done : list item) (g : Groups) (x : item) :
  inherited (keyOf (dateOf x)) = false ->
  Filed done g ->
  exists g', groupStep (Some g) x = Some g' /\ Filed (done ++ [x]) g'.
Proof.
  intros Hx [Hkeys Hbucket Hall]. unfold groupStep.
  set (d := keyOf (dateOf x)) in *.
  destruct (getBucket d g) as [b|] eqn:Hd.
  - eexists. split; [reflexivity|]. split.
    + now rewrite keys_pushTo.
    + intro k. unfold bucketOf. rewrite getBucket_pushTo, filter_snoc.
      specialize (Hbucket k). unfold bucketOf in Hbucket.
      unfold keyed at 2. fold d. rewrite (String.eqb_sym d k).
      destruct (String.eqb k d) eqn:Hk.
      * apply String.eqb_eq in Hk. subst k. rewrite Hd in *. simpl.
        now rewrite Hbucket.
      * now rewrite app_nil_r.
    + eapply perm_trans; [eapply allRecords_pushTo, Hd|].
      now apply Permutation_app_tail.
  - rewrite Hx. eexists. split; [reflexivity|].
    assert (Hd' : getBucket d (g ++ [(d, [])]) = Some []).
    { rewrite getBucket_new, Hd. now rewrite String.eqb_refl. }
    split.
    + rewrite keys_pushTo, map_app. simpl.
      apply NoDup_app_remove_l with (l := []). simpl.
      apply Permutation_NoDup with (l := d :: map fst g).
      * apply Permutation_cons_append.
      * constructor; [now apply getBucket_None | exact Hkeys].
    + intro k. unfold bucketOf.
      rewrite getBucket_pushTo, getBucket_new, filter_snoc.
      specialize (Hbucket k). unfold bucketOf in Hbucket.
      unfold keyed at 2. fold d. rewrite (String.eqb_sym d k).
      destruct (String.eqb k d) eqn:Hk.
      * apply String.eqb_eq in Hk. subst k. rewrite Hd in *. simpl.
        now rewrite <- Hbucket.
      * destruct (getBucket k g); now rewrite app_nil_r.
    + eapply perm_trans; [eapply allRecords_pushTo, Hd'|].
      rewrite allRecords_new. now apply Permutation_app_tail.
Qed.

Lemma fold_groupStep_Filed (l done : list item) (g : Groups) :
  Forall (fun x => inherited (keyOf (dateOf x)) = false) l ->
  Filed done g ->
  exists g', fold_left groupStep l (Some g) = Some g' /\ Filed (done ++ l) g'.
Proof.
  revert done g. induction l as [|x l IH]; intros done g Hl Hg.
  - exists g. rewrite app_nil_r. now split.
  - inversion Hl as [|? ? Hx Hl']; subst.
    destruct (groupStep_Filed done g x Hx Hg) as (g1 & Hstep & Hg1).
    destruct (IH (done ++ [x]) g1 Hl' Hg1) as (g' & Hfold & Hg').
    exists g'. cbn [fold_left]. rewrite Hstep. split; [exact Hfold|].
    now rewrite <- app_assoc in Hg'.
Qed.

Lemma filter_partition_perm {X : Type} (f : X -> bool) (l : list X) :
  Permutation l (filter f l ++ filter (fun x => negb (f x)) l).
Proof.
  induction l as [|x l IH]; simpl; [constructor|].
  destruct (f x); simpl; [now constructor|].
  now apply Permutation_cons_app.
Qed.

Lemma Object_keys_perm (g : Groups) : Permutation (map fst g) (Object_keys g).
Proof.
  unfold Object_keys.
  eapply perm_trans; [apply (filter_partition_perm isIndex)|].
  apply Permutation_app_tail, sort_perm.
Qed.

Lemma sortedDates_perm (g : Groups) : Permutation (map fst g) (sortedDates g).
Proof.
  eapply perm_trans; [apply Object_keys_perm | apply sort_perm].
Qed.

Lemma keyAfter_asym (a b : string) :
  keyAfter Date_getTime a b = true -> keyAfter Date_getTime b a = false.
Proof.
  unfold keyAfter.
  destruct (Date_getTime (Some (JStr b))) as [tb|],
           (Date_getTime (Some (JStr a))) as [ta|]; try discriminate.
  intro H. apply Z.ltb_lt in H. apply Z.ltb_ge. lia.
Qed.

Lemma getBucket_In (g : Groups) (k : string) (b : list item) :
  NoDup (map fst g) -> In (k, b) g -> getBucket k g = Some b.
Proof.
  induction g as [|[k' b'] g IH]; simpl; intros Hnd Hin; [tauto|].
  inversion Hnd as [|? ? Hk' Hnd']; subst.
  destruct Hin as [Heq|Hin].
  - inversion Heq; subst. now rewrite String.eqb_refl.
  - destruct (String.eqb k k') eqn:Hk; [|now apply IH].
    apply String.eqb_eq in Hk. subst k'. exfalso. apply Hk'.
    change k with (fst (k, b)). now apply in_map.
Qed.

Lemma buckets_of_own_keys (g g' : Groups) :
  NoDup (map fst g) -> incl g' g ->
  flat_map (bucketOf g) (map fst g') = allRecords g'.
Proof.
  intros Hnd. induction g' as [|[k b] g' IH]; intro Hincl; [reflexivity|].
  unfold allRecords in *. simpl. unfold bucketOf at 1.
  rewrite (getBucket_In g k b Hnd) by (apply Hincl; now left).
  f_equal. apply IH. intros p Hp. apply Hincl. now right.
Qed.

(** The list as rendered holds the records of all the buckets. *)
Lemma rendered_perm (g : Groups) :
  NoDup (map fst g) -> Permutation (allRecords g) (renderedExpenses g).
Proof.
  intro Hnd. rewrite <- (buckets_of_own_keys g g Hnd) by apply incl_refl.
  unfold renderedExpenses. apply Permutation_flat_map, sortedDates_perm.
Qed.

Section HostDates.

(** No member name of [Object.prototype] reads as a date. *)
Hypothesis inherited_not_a_date :
  forall k, inherited k = true -> Date_getTime (Some (JStr k)) = None.

Lemma wellDated_own_key (x : item) :
  wellDated x = true -> inherited (keyOf (dateOf x)) = false.
Proof.
  unfold wellDated. destruct (dateOf x) as [[| | |s| |]|]; try discriminate.
  simpl. destruct (inherited s) eqn:Hs; [|reflexivity].
  now rewrite (inherited_not_a_date s Hs).
Qed.

Lemma wellDated_keyed (k : string) (x : item) :
  wellDated x = true -> keyed k x = onDate k x.
Proof.
  unfold wellDated, keyed, onDate.
  now destruct (dateOf x) as [[| | |s| |]|].
Qed.

(** C4. Grouping a collection of expenses (records whose date is a string
    that reads as a date) does not throw, and listing the buckets date by
    date, the distinct dates in the comparator's descending order and each
    bucket in the order of the collection, gives back every record once:
    the count is the count of the collection. *)
Theorem groupByDate_keeps_every_record (l : list item) :
  Forall (fun x => wellDated x = true) l ->
  exists g,
    groupedExpenses l = Some g
    /\ List.length (renderedExpenses g) = List.length l
    /\ Permutation l (renderedExpenses g)
    /\ NoDup (sortedDates g)
    /\ Sorted (notAfter (keyAfter Date_getTime)) (sortedDates g)
    /\ (forall d, bucketOf g d = filter (onDate d) l)
    /\ renderedExpenses g
       = flat_map (fun d => filter (onDate d) l) (sortedDates g).
Proof.
  intro Hl.
  assert (Hown : Forall (fun x => inherited (keyOf (dateOf x)) = false) l).
  { eapply Forall_impl; [|exact Hl]. intros x Hx. now apply wellDated_own_key. }
  destruct (fold_groupStep_Filed l [] [] Hown Filed_nil)
    as (g & Hfold & [Hkeys Hbucket Hall]).
  simpl in Hbucket, Hall.
  assert (Hperm : Permutation l (renderedExpenses g)).
  { eapply perm_trans; [apply Permutation_sym, Hall | now apply rendered_perm]. }
  assert (Hb : forall d, bucketOf g d = filter (onDate d) l).
  { intro d. rewrite Hbucket. apply filter_ext_in. intros x Hx.
    rewrite Forall_forall in Hl. now apply wellDated_keyed, Hl. }
  exists g. split; [exact Hfold|].
  split; [symmetry; now apply Permutation_length|].
  split; [exact Hperm|].
  split; [eapply Permutation_NoDup; [apply sortedDates_perm | exact Hkeys]|].
  split; [apply sort_sorted, keyAfter_asym|].
  split; [exact Hb|].
  unfold renderedExpenses. apply flat_map_ext. exact Hb.
Qed.

End HostDates.

(** Outside that domain the reducer can throw: a date spelled like a member
    of [Object.prototype] finds that member in [groups[date]]. *)
Lemma groupedExpenses_inherited_key (x : item) (l : list item) :
  inherited (keyOf (dateOf x)) = true -> groupedExpenses (x :: l) = None.
Proof.
  intro Hx. unfold groupedExpenses. cbn [fold_left].
  unfold groupStep at 2. simpl getBucket. rewrite Hx.
  induction l as [|y l IH]; [reflexivity | exact IH].
Qed.

End GroupFacts.

(* ================================================================= *)
(** ** Balance Aggregator *)

Lemma partyTotal_from (m : BalanceAggregator.Month) (p : BalanceAggregator.UserID)
    (es : list BalanceAggregator.Expense) (acc : Q) :
  (fold_left (BalanceAggregator.addExpense m p) es acc
   == acc + BalanceAggregator.sumQ (BalanceAggregator.paidIn m p es))%Q.
Proof.
  revert acc. induction es as [|e es IH]; intro acc.
  - simpl. ring.
  - cbn [fold_left]. rewrite IH.
    unfold BalanceAggregator.paidIn, BalanceAggregator.addExpense. simpl.
    destruct (BalanceAggregator.inMonth m e
              && BalanceAggregator.UserID_eqb (BalanceAggregator.payer e) p);
      simpl; ring.
Qed.

Lemma partyTotal_sum (m : BalanceAggregator.Month) (p : BalanceAggregator.UserID)
    (es : list BalanceAggregator.Expense) :
  (BalanceAggregator.partyTotal m p es
   == BalanceAggregator.sumQ (BalanceAggregator.paidIn m p es))%Q.
Proof. unfold BalanceAggregator.partyTotal. rewrite partyTotal_from. ring. Qed.

(** C2. The aggregator is a total function. Each party's total is the sum
    of the amounts of exactly the expenses that party paid and whose date
    lies in the reference month of the reference year; an expense of
    another month adds nothing, however few days away it is; the balance is
    half the difference of the two totals; on the empty collection both
    totals and the balance are zero. *)
Theorem balance_over_calendar_month (es : list BalanceAggregator.Expense)
    (m : BalanceAggregator.Month) (partyA partyB : BalanceAggregator.UserID) :
  let r := BalanceAggregator.summarize es m partyA partyB in
  let none := BalanceAggregator.summarize [] m partyA partyB in
  (BalanceAggregator.totalA r
   == BalanceAggregator.sumQ (BalanceAggregator.paidIn m partyA es)
   /\ BalanceAggregator.totalB r
      == BalanceAggregator.sumQ (BalanceAggregator.paidIn m partyB es)
   /\ BalanceAggregator.balance r
      == (BalanceAggregator.totalA r - BalanceAggregator.totalB r) / 2
   /\ (forall e p,
          BalanceAggregator.inMonth m e = false ->
          BalanceAggregator.partyTotal m p (e :: es)
          == BalanceAggregator.partyTotal m p es)
   /\ (forall e,
          BalanceAggregator.inMonth m e = true <->
          BalanceAggregator.year (BalanceAggregator.date e)
          = BalanceAggregator.refYear m
          /\ BalanceAggregator.month (BalanceAggregator.date e)
             = BalanceAggregator.refMonth m)
   /\ BalanceAggregator.totalA none == 0
   /\ BalanceAggregator.totalB none == 0
   /\ BalanceAggregator.balance none == 0)%Q.
Proof.
  intros r none. unfold r, none, BalanceAggregator.summarize. simpl.
  split; [apply partyTotal_sum|].
  split; [apply partyTotal_sum|].
  split; [reflexivity|].
  split.
  { intros e p He. rewrite !partyTotal_sum.
    unfold BalanceAggregator.paidIn. simpl. rewrite He. reflexivity. }
  split.
  { intro e. unfold BalanceAggregator.inMonth.
    rewrite andb_true_iff, !Z.eqb_eq. tauto. }
  repeat split; reflexivity.
Qed.

(** The scenario of the specification: 100 paid by A and 50 paid by B on
    2024-01-10 give 100, 50 and a balance of 25 for January 2024; and a
    payment made on 2024-01-31, one day before February begins, counts for
    nothing in February. *)
Example balance_scenario :
  let jan10 := BalanceAggregator.mkDate 2024 1 10 in
  let jan31 := BalanceAggregator.mkDate 2024 1 31 in
  let feb1 := BalanceAggregator.mkDate 2024 2 1 in
  let es := [ BalanceAggregator.mkExpense "1" jan10 100 BalanceAggregator.A;
              BalanceAggregator.mkExpense "2" jan10 50 BalanceAggregator.B;
              BalanceAggregator.mkExpense "3" jan31 70 BalanceAggregator.A ] in
  let january :=
    BalanceAggregator.summarize (firstn 2 es) (BalanceAggregator.mkMonth 2024 1)
      BalanceAggregator.A BalanceAggregator.B in
  let february :=
    BalanceAggregator.summarize es (BalanceAggregator.mkMonth 2024 2)
      BalanceAggregator.A BalanceAggregator.B in
  (BalanceAggregator.totalA january == 100
   /\ BalanceAggregator.totalB january == 50
   /\ BalanceAggregator.balance january == 25
   /\ BalanceAggregator.totalA february == 0
   /\ BalanceAggregator.balance february == 0)%Q
  /\ BalanceAggregator.dayNumber feb1 - BalanceAggregator.dayNumber jan31 = 1.
Proof. repeat split. Qed.

(* ================================================================= *)
(** ** Identifier uniqueness *)

(** C6. Identifiers do not stay pairwise distinct. An import drops the
    candidates whose identifier the store already has, but never compares
    the candidates with one another: two candidates with one new identifier
    are both admitted. A save takes its identifier from the clock alone:
    two saves within one millisecond give the same identifier twice. *)
Theorem duplicate_identifiers_enter_the_store :
  let imported :=
    handleImportData isoGetTime (Some (JArr (map toJson twins))) (idle []) in
  let now := 1700000000000 in
  let saved := handleSaveExpense isoGetTime now now lunchDraft (idle []) in
  let savedAgain := handleSaveExpense isoGetTime now now lunchDraft saved in
  NoDup (map idOf (expenses (idle [])))
  /\ map idOf (expenses imported) = [Some (JStr "a"); Some (JStr "a")]
  /\ ~ NoDup (map idOf (expenses imported))
  /\ alerts imported = [AlertImported 2]
  /\ NoDup (map idOf (expenses saved))
  /\ map idOf (expenses savedAgain)
     = [Some (JStr "1700000000000"); Some (JStr "1700000000000")]
  /\ ~ NoDup (map idOf (expenses savedAgain)).
Proof.
  assert (Htwice : forall v : option json, ~ NoDup [v; v]).
  { intros v H. inversion H as [|? ? Hin _]. apply Hin. now left. }
  cbv zeta.
  split; [constructor|].
  split; [reflexivity|].
  split; [apply Htwice|].
  split; [reflexivity|].
  split; [repeat constructor; intros []|].
  split; [reflexivity | apply Htwice].
Qed.

(* ================================================================= *)
(** ** The theorems at work on sample data *)

Lemma isoGetTime_inherited (k : string) :
  inherited k = true -> isoGetTime (Some (JStr k)) = None.
Proof.
  unfold inherited, objectPrototypeKeys. simpl. intro H.
  repeat match type of H with
         | (String.eqb k ?c || _)%bool = true =>
             destruct (String.eqb k c) eqn:E;
             [apply String.eqb_eq in E; subst k; reflexivity
             | simpl in H; clear E]
         end.
  discriminate.
Qed.

Lemma importMerge_admits_new_witness :
  let s' :=
    handleImportData isoGetTime (Some (JArr (map toJson fiveCandidates)))
      (idle twoStored) in
  (List.length fiveCandidates = 5
   /\ List.length
        (filter (fun e => setHas (map idOf twoStored) (idOf e)) fiveCandidates)
      = 2
   /\ Forall (fun x => wellDated isoGetTime x = true)
        (fiveCandidates ++ twoStored)
   /\ alerts s' = [AlertImported 3]
   /\ List.length (expenses s') = 5
   /\ StronglySorted (dateDesc isoGetTime) (expenses s'))%nat.
Proof.
  intro s'.
  assert (Hv : Forall (fun x => wellDated isoGetTime x = true)
                 (fiveCandidates ++ twoStored))
    by (repeat constructor).
  destruct (importMerge_admits_new isoGetTime (idle twoStored) fiveCandidates)
    as (_ & _ & _ & _ & Hdesc & _ & _ & _ & Hscenario).
  destruct (Hscenario eq_refl eq_refl) as (_ & Halert & Hsize).
  exact (conj eq_refl (conj eq_refl (conj Hv (conj Halert (conj Hsize (Hdesc Hv)))))).
Defined.


Lemma add_inserts_then_sorts_witness :
  let e := newExpense 1700000000000 1700000000001 lunchDraft in
  let s' :=
    handleSaveExpense isoGetTime 1700000000000 1700000000001 lunchDraft
      (idle twoStored) in
  Forall (fun x => wellDated isoGetTime x = true) (e :: twoStored)
  /\ StronglySorted (dateDesc isoGetTime) (expenses s')
  /\ expenses s' = e :: twoStored.
Proof.
  intros e s'.
  assert (Hv : Forall (fun x => wellDated isoGetTime x = true) (e :: twoStored))
    by (repeat constructor).
  destruct (add_inserts_then_sorts isoGetTime 1700000000000 1700000000001
              lunchDraft (idle twoStored)) as (Heq & _ & _ & Hdesc).
  exact (conj Hv (conj (Hdesc Hv) Heq)).
Defined.

Lemma groupByDate_keeps_every_record_witness :
  Forall (fun x => wellDated isoGetTime x = true) fiveCandidates
  /\ exists g,
       groupedExpenses plainToString fiveCandidates = Some g
       /\ List.length (renderedExpenses isoGetTime g) = 5%nat.
Proof.
  assert (Hv : Forall (fun x => wellDated isoGetTime x = true) fiveCandidates)
    by (repeat constructor).
  destruct (groupByDate_keeps_every_record isoGetTime plainToString
              isoGetTime_inherited fiveCandidates Hv)
    as (g & Hg & Hlen & _).
  split; [exact Hv|]. exists g. split; [exact Hg | exact Hlen].
Defined.

Lemma import_rejects_unparsed_and_non_arrays_witness :
  let s := idle twoStored in
  handleImportData isoGetTime None s = alert AlertParseFailed s
  /\ isArray (JObj []) = false
  /\ handleImportData isoGetTime (Some (JObj [])) s = alert AlertInvalidFormat s
  /\ asItems [JNull] = None
  /\ handleImportData isoGetTime (Some (JArr [JNull])) s
     = alert AlertParseFailed s.
Proof.
  intro s.
  destruct (import_rejects_unparsed_and_non_arrays isoGetTime None s)
    as (H1 & _).
  destruct (import_rejects_unparsed_and_non_arrays isoGetTime
              (Some (JObj [])) s) as (_ & H2 & _).
  destruct (import_rejects_unparsed_and_non_arrays isoGetTime
              (Some (JArr [JNull])) s) as (_ & _ & H3 & _).
  exact (conj (H1 eq_refl)
           (conj eq_refl
              (conj (H2 _ eq_refl eq_refl)
                 (conj eq_refl (H3 _ eq_refl eq_refl))))).
Defined.

(** An array of records that are not expense-shaped is merged all the
    same, and success is reported. *)
Lemma import_merges_unshaped_records :
  let payload := JArr [JObj []; JNum 1] in
  let s := idle twoStored in
  let s' := handleImportData isoGetTime (Some payload) s in
  collectionOfExpenses payload = false
  /\ expenses s' = [IObj []; INum 1] ++ twoStored
  /\ alerts s' = [AlertImported 2]
  /\ ~ (collectionOfExpenses payload = false ->
        expenses s' = expenses s
        /\ exists a, In a (alerts s') /\ isFailure a = true).
Proof.
  cbv zeta. repeat apply conj; try reflexivity.
  intro H. destruct (H eq_refl) as [Hsame _]. vm_compute in Hsame.
  discriminate.
Qed.

Lemma balance_over_calendar_month_witness :
  let jan := BalanceAggregator.mkMonth 2024 1 in
  let e :=
    BalanceAggregator.mkExpense "9" (BalanceAggregator.mkDate 2023 12 31) 70
      BalanceAggregator.A in
  BalanceAggregator.inMonth jan e = false
  /\ (BalanceAggregator.partyTotal jan BalanceAggregator.A [e] == 0)%Q.
Proof.
  intros jan e.
  destruct (balance_over_calendar_month [] jan BalanceAggregator.A
              BalanceAggregator.B) as (_ & _ & _ & Hout & _).
  split; [reflexivity | exact (Hout e BalanceAggregator.A eq_refl)].
Defined.

(** *** Runs of the model *)

(** The import of [fiveCandidates] into [twoStored]: the admitted records
    lead their dates, the stored ones keep their order. *)
Example import_order :
  map idOf
    (expenses
       (handleImportData isoGetTime (Some (JArr (map toJson fiveCandidates)))
          (idle twoStored)))
  = map (fun i => Some (JStr i)) ["3"; "5"; "1"; "2"; "4"].
Proof. reflexivity. Qed.

Example grouping_order :
  option_map (sortedDates isoGetTime)
    (groupedExpenses plainToString
       (expenses
          (handleImportData isoGetTime
             (Some (JArr (map toJson fiveCandidates))) (idle twoStored))))
  = Some ["2024-01-12"; "2024-01-10"; "2024-01-08"].
Proof. reflexivity. Qed.

(** A date that is no calendar date is outside what the theorems above
    cover. A record whose date does not parse compares as equal to every
    other (the comparator is [NaN]), so it can keep an older record in
    front of a newer one; and a date spelled like a member of
    [Object.prototype] makes the grouping throw. *)
Example unparsed_date_in_store :
  let undated := expenseRecord "1" "" "Lunch" 10 "A" in
  let newer := expenseRecord "2" "2024-01-02" "Taxi" 20 "B" in
  let older := [("date", JStr "2024-01-01"); ("item", JStr "Books")] in
  map dateOf
    (expenses (handleSaveExpense isoGetTime 5 5 older (idle [undated; newer])))
  = map (fun d => Some (JStr d)) ["2024-01-01"; ""; "2024-01-02"].
Proof. reflexivity. Qed.

Example inherited_date_in_store :
  groupedExpenses plainToString
    [expenseRecord "1" "constructor" "Lunch" 10 "A"] = None.
Proof. reflexivity. Qed.

Lemma new_records_lead_their_date_witness :
  let s := idle twoStored in
  let e := newExpense 1700000000000 1700000000001 lunchDraft in
  let saved :=
    handleSaveExpense isoGetTime 1700000000000 1700000000001 lunchDraft s in
  let imported :=
    handleImportData isoGetTime (Some (JArr (map toJson fiveCandidates))) s in
  Forall (fun x => wellDated isoGetTime x = true) ([e] ++ expenses s)
  /\ filter (onDate "2024-01-10") (expenses saved)
     = filter (onDate "2024-01-10") [e]
         ++ filter (onDate "2024-01-10") (expenses s)
  /\ Forall (fun x => wellDated isoGetTime x = true)
       (newItems s fiveCandidates ++ expenses s)
  /\ filter (onDate "2024-01-12") (expenses imported)
     = filter (onDate "2024-01-12") (newItems s fiveCandidates)
         ++ filter (onDate "2024-01-12") (expenses s).
Proof.
  intros s e saved imported.
  assert (Hsave : Forall (fun x => wellDated isoGetTime x = true)
                    ([e] ++ expenses s))
    by (repeat constructor).
  assert (Himport : Forall (fun x => wellDated isoGetTime x = true)
                      (newItems s fiveCandidates ++ expenses s))
    by (repeat constructor).
  destruct (new_records_lead_their_date isoGetTime s) as (_ & Hs & Hi).
  destruct (Hs 1700000000000 1700000000001 lunchDraft None "2024-01-10" Hsave)
    as (_ & _ & _ & Hsaved).
  destruct (Hi fiveCandidates None "2024-01-12" Himport)
    as (_ & _ & _ & Himported).
  exact (conj Hsave (conj Hsaved (conj Himport Himported))).
Defined.

(* ================================================================= *)
(** ** Sequences of events *)

Lemma sort_app_sort {X : Type} (aft : X -> X -> bool) (l1 l2 : list X) :
  (forall a b, aft a b = true -> aft b a = false) ->
  sort aft (l1 ++ sort aft l2) = sort aft (l1 ++ l2).
Proof.
  intro Hasym. induction l1 as [|x l1 IH]; simpl.
  - now apply sort_idem.
  - now rewrite IH.
Qed.

Section EventFacts.

Variable Date_getTime : option json -> option Z.

Local Abbreviation after := (after Date_getTime).
Local Abbreviation sortByDate := (sortByDate Date_getTime).
Local Abbreviation dispatch := (dispatch Date_getTime).
Local Abbreviation run := (run Date_getTime).
Local Abbreviation addedBy := (addedBy Date_getTime).

Lemma added_untouched (s : State) (ev : Event) :
  touchesStore ev = false -> added s ev = [].
Proof.
  destruct ev as [| | | | | | |[[| | | |l|]|]]; simpl; try reflexivity;
    try discriminate.
  now destruct (asItems l).
Qed.

(** Which events reach the store, and how: a save and the import of an
    array free of [null] replace it by the date sort of the records they
    add followed by the stored ones; every other event, a failed import
    among them, leaves it as it is. *)
Lemma dispatch_store (s : State) (ev : Event) :
  expenses (dispatch s ev)
  = if touchesStore ev then sortByDate (added s ev ++ expenses s)
    else expenses s.
Proof.
  destruct ev as [today other|file setupThrows|outcome|now1 now2 finalData
                  | | | |parsed]; simpl; try reflexivity.
  - now destruct file, setupThrows.
  - now destruct outcome.
  - destruct parsed as [[| | | |l|]|]; simpl; try reflexivity.
    unfold handleImportData. now destruct (asItems l).
Qed.

Lemma dispatch_perm (s : State) (ev : Event) :
  Permutation (added s ev ++ expenses s) (expenses (dispatch s ev)).
Proof.
  rewrite dispatch_store. destruct (touchesStore ev) eqn:Hev.
  - apply sort_perm.
  - now rewrite added_untouched.
Qed.

Lemma run_perm (evs : list Event) (s : State) :
  Permutation (addedBy evs s ++ expenses s) (expenses (run evs s)).
Proof.
  revert s. induction evs as [|ev evs IH]; intro s; simpl.
  - apply Permutation_refl.
  - eapply perm_trans; [|apply IH].
    rewrite <- app_assoc. apply Permutation_app_head, dispatch_perm.
Qed.

(** X1. No sequence of events loses or duplicates a record: the store is
    always a rearrangement of the records the events have added and the
    records it began with; so every record once stored stays stored, and
    the store never shrinks. *)
Theorem store_only_grows (evs : list Event) (s : State) :
  Permutation (addedBy evs s ++ expenses s) (expenses (run evs s))
  /\ incl (expenses s) (expenses (run evs s))
  /\ (List.length (expenses (run evs s))
      = List.length (addedBy evs s) + List.length (expenses s))%nat.
Proof.
  split; [apply run_perm|]. split.
  - intros e He. eapply Permutation_in; [apply run_perm|].
    apply in_or_app. now right.
  - rewrite <- (Permutation_length (run_perm evs s)). apply length_app.
Qed.

Lemma dispatch_sorted (s : State) (ev : Event) :
  Sorted (notAfter after) (expenses s) ->
  Sorted (notAfter after) (expenses (dispatch s ev))
  /\ expenses (dispatch s ev) = sortByDate (added s ev ++ expenses s).
Proof.
  intro Hs. rewrite dispatch_store. destruct (touchesStore ev) eqn:Hev.
  - split; [apply sortByDate_sorted | reflexivity].
  - split; [exact Hs|]. rewrite added_untouched by exact Hev.
    symmetry. now apply sort_fixed.
Qed.

(** The model's store after a sequence of events, with the model's sort at
    each step. *)
Lemma run_sortByDate (evs : list Event) (s : State) :
  Sorted (notAfter after) (expenses s) \/ existsb touchesStore evs = true ->
  expenses (run evs s) = sortByDate (addedBy evs s ++ expenses s)
  /\ Sorted (notAfter after) (expenses (run evs s)).
Proof.
  assert (Hsorted : forall evs s,
            Sorted (notAfter after) (expenses s) ->
            expenses (run evs s) = sortByDate (addedBy evs s ++ expenses s)
            /\ Sorted (notAfter after) (expenses (run evs s))).
  { clear evs s. induction evs as [|ev evs IH]; intros s Hs; simpl.
    - split; [symmetry; now apply sort_fixed | exact Hs].
    - destruct (dispatch_sorted s ev Hs) as [Hs1 Heq].
      destruct (IH _ Hs1) as [Hrun Hres]. split; [|exact Hres].
      rewrite Hrun, Heq, <- app_assoc.
      apply sort_app_sort, after_asym. }
  revert s. induction evs as [|ev evs IH]; intros s [Hs|Hev];
    try (now apply Hsorted).
  simpl in Hev. destruct (touchesStore ev) eqn:Htouch.
  - clear Hev. simpl.
    assert (Hs1 : Sorted (notAfter after) (expenses (dispatch s ev))).
    { rewrite dispatch_store, Htouch. apply sortByDate_sorted. }
    destruct (Hsorted evs _ Hs1) as [Hrun Hres]. split; [|exact Hres].
    rewrite Hrun, dispatch_store, Htouch, <- app_assoc.
    apply sort_app_sort, after_asym.
  - simpl in Hev. simpl.
    destruct (IH (dispatch s ev) (or_intror Hev)) as [Hrun Hres].
    split; [|exact Hres].
    rewrite Hrun, dispatch_store, Htouch.
    now rewrite (added_untouched s ev Htouch), app_nil_r.
Qed.


(** X2. The store as a function of its history, for records whose dates
    parse. When every record, stored at the start or added since, has a
    date that parses, then once a record has been saved or imported (or if
    the store began with no adjacent pair out of order) the store is the
    date sort of all the records added so far, the latest additions first,
    followed by the initial store; it is in descending date order. *)
Theorem store_is_sorted_history (evs : list Event) (s : State) :
  Forall (fun x => wellDated Date_getTime x = true)
    (addedBy evs s ++ expenses s) ->
  Sorted (notAfter after) (expenses s) \/ existsb touchesStore evs = true ->
  expenses (run evs s) = sortByDate (addedBy evs s ++ expenses s)
  /\ StronglySorted (dateDesc Date_getTime) (expenses (run evs s)).
Proof.
  intros Hv Hs. destruct (run_sortByDate evs s Hs) as [Hrun _].
  split; [exact Hrun|]. rewrite Hrun. now apply sortByDate_desc.
Qed.

End EventFacts.

(* ================================================================= *)
(** ** The object a save builds *)

Lemma getOwn_setOwn (k k' : string) (v : json) (fs : list (string * json)) :
  getOwn k (setOwn k' v fs)
  = if String.eqb k k' then Some v else getOwn k fs.
Proof.
  induction fs as [|[k1 v1] fs IH]; simpl.
  - now destruct (String.eqb k k').
  - destruct (String.eqb k' k1) eqn:H1; simpl.
    + apply String.eqb_eq in H1. subst k1.
      now destruct (String.eqb k k').
    + destruct (String.eqb k k1) eqn:H2; [|exact IH].
      apply String.eqb_eq in H2. subst k1.
      rewrite String.eqb_sym in H1. now rewrite H1.
Qed.

Lemma getOwn_absent (k : string) (fs : list (string * json)) :
  ~ In k (map fst fs) -> getOwn k fs = None.
Proof.
  induction fs as [|[k1 v1] fs IH]; simpl; intro H; [reflexivity|].
  destruct (String.eqb k k1) eqn:Hk.
  - apply String.eqb_eq in Hk. subst k1. tauto.
  - apply IH. tauto.
Qed.

Lemma getOwn_spread (k : string) (src fs : list (string * json)) :
  NoDup (map fst src) ->
  getOwn k (spread src fs)
  = match getOwn k src with Some v => Some v | None => getOwn k fs end.
Proof.
  unfold spread. revert fs.
  induction src as [|[k1 v1] src IH]; intros fs Hnd; [reflexivity|].
  inversion Hnd as [|? ? Hk1 Hnd']; subst. simpl.
  rewrite (IH _ Hnd'), getOwn_setOwn.
  destruct (String.eqb k k1) eqn:Hk; [|reflexivity].
  apply String.eqb_eq in Hk. subst k1.
  now rewrite getOwn_absent.
Qed.

Lemma keys_setOwn_in (k k' : string) (v : json) (fs : list (string * json)) :
  In k' (map fst (setOwn k v fs)) -> k' = k \/ In k' (map fst fs).
Proof.
  induction fs as [|[k1 v1] fs IH]; simpl; intro Hin.
  - intuition congruence.
  - destruct (String.eqb k k1) eqn:Hk; simpl in Hin.
    + intuition congruence.
    + destruct Hin as [H|H]; [now (right; left)|].
      destruct (IH H); [now left | now (right; right)].
Qed.

Lemma keys_setOwn (k : string) (v : json) (fs : list (string * json)) :
  NoDup (map fst fs) -> NoDup (map fst (setOwn k v fs)).
Proof.
  induction fs as [|[k1 v1] fs IH]; simpl; intro Hnd.
  - repeat constructor. intros [].
  - inversion Hnd as [|? ? Hk1 Hnd']; subst.
    destruct (String.eqb k k1) eqn:Hk; simpl.
    + apply String.eqb_eq in Hk. subst k1. now constructor.
    + constructor; [|now apply IH].
      intro Hin. destruct (keys_setOwn_in _ _ _ _ Hin) as [->|H]; [|tauto].
      now rewrite String.eqb_refl in Hk.
Qed.

Lemma keys_spread (src fs : list (string * json)) :
  NoDup (map fst fs) -> NoDup (map fst (spread src fs)).
Proof.
  unfold spread. revert fs.
  induction src as [|[k1 v1] src IH]; intros fs Hnd; [exact Hnd|].
  simpl. apply IH. now apply keys_setOwn.
Qed.

(** X3. The expense a save builds from a draft (an object, each key once).
    Its [createdAt] is the second clock reading, whatever the draft holds;
    its [id] is the decimal form of the first clock reading unless the draft
    has an [id] of its own, which the spread then puts in its place; every
    other property is the draft's. Its keys are distinct. *)
Theorem newExpense_properties (now1 now2 : Z) (finalData : draft) :
  NoDup (map fst finalData) ->
  let fields := newExpenseFields now1 now2 finalData in
  newExpense now1 now2 finalData = IObj fields
  /\ NoDup (map fst fields)
  /\ (forall k,
         getOwn k fields
         = if String.eqb k "createdAt" then Some (JNum (inject_Z now2))
           else match getOwn k finalData with
                | Some v => Some v
                | None =>
                    if String.eqb k "id"
                    then Some (JStr (Number_toString now1)) else None
                end)
  /\ dateOf (newExpense now1 now2 finalData) = getOwn "date" finalData.
Proof.
  intros Hnd fields.
  assert (Hk : forall k,
             getOwn k fields
             = if String.eqb k "createdAt" then Some (JNum (inject_Z now2))
               else match getOwn k finalData with
                    | Some v => Some v
                    | None =>
                        if String.eqb k "id"
                        then Some (JStr (Number_toString now1)) else None
                    end).
  { intro k. unfold fields, newExpenseFields.
    rewrite getOwn_setOwn, getOwn_spread by exact Hnd. reflexivity. }
  split; [reflexivity|]. split.
  - apply keys_setOwn, keys_spread. repeat constructor. intros [].
  - split; [exact Hk|].
    change (dateOf (newExpense now1 now2 finalData))
      with (getOwn "date" fields).
    rewrite Hk. simpl. now destruct (getOwn "date" finalData).
Qed.

(* ================================================================= *)
(** ** Identifiers that stay distinct *)

Lemma sameValueZero_sym (a b : option json) :
  sameValueZero a b = sameValueZero b a.
Proof.
  destruct a as [[|x|x|x| |]|], b as [[|y|y|y| |]|]; simpl; try reflexivity.
  - now destruct x, y.
  - destruct (Qeq_bool x y) eqn:E.
    + symmetry. apply Qeq_bool_iff. symmetry. now apply Qeq_bool_iff.
    + destruct (Qeq_bool y x) eqn:E'; [|reflexivity].
      apply Qeq_bool_iff in E'. symmetry in E'.
      apply Qeq_bool_iff in E'. congruence.
  - apply String.eqb_sym.
Qed.

Lemma setHas_perm (l l' : list item) (v : option json) :
  Permutation l l' -> setHas (map idOf l) v = setHas (map idOf l') v.
Proof.
  unfold setHas. induction 1 as [|x l l' _ IH|x y l|l l' l'' _ IH1 _ IH2];
    simpl.
  - reflexivity.
  - now rewrite IH.
  - now rewrite !orb_assoc, (orb_comm (sameValueZero v (idOf y))).
  - now rewrite IH1.
Qed.

Lemma uniqueIds_perm (l l' : list item) :
  Permutation l l' -> uniqueIds l = uniqueIds l'.
Proof.
  induction 1 as [|x l l' Hp IH|x y l|l l' l'' _ IH1 _ IH2]; simpl.
  - reflexivity.
  - now rewrite IH, (setHas_perm l l' _ Hp).
  - unfold setHas. simpl. rewrite (sameValueZero_sym (idOf y) (idOf x)).
    destruct (sameValueZero (idOf x) (idOf y)),
             (existsb (sameValueZero (idOf x)) (map idOf l)),
             (existsb (sameValueZero (idOf y)) (map idOf l)); reflexivity.
  - now rewrite IH1.
Qed.

Lemma setHas_app (l1 l2 : list item) (v : option json) :
  setHas (map idOf (l1 ++ l2)) v
  = setHas (map idOf l1) v || setHas (map idOf l2) v.
Proof. unfold setHas. now rewrite map_app, existsb_app. Qed.

Lemma uniqueIds_app (l1 l2 : list item) :
  uniqueIds (l1 ++ l2)
  = uniqueIds l1 && uniqueIds l2
    && forallb (fun x => negb (setHas (map idOf l2) (idOf x))) l1.
Proof.
  induction l1 as [|x l1 IH]; simpl.
  - now rewrite andb_true_r.
  - rewrite IH, setHas_app.
    destruct (setHas (map idOf l1) (idOf x)), (setHas (map idOf l2) (idOf x)),
             (uniqueIds l1), (uniqueIds l2); simpl; try reflexivity.
Qed.

Lemma setHas_filter (f : item -> bool) (l : list item) (v : option json) :
  setHas (map idOf (filter f l)) v = true -> setHas (map idOf l) v = true.
Proof.
  intro H. apply setHas_true in H. destruct H as (w & Hw & Hsv).
  apply setHas_true. exists w. split; [|exact Hsv].
  apply in_map_iff in Hw. destruct Hw as (e & <- & He).
  apply in_map. now apply filter_In in He.
Qed.

Lemma uniqueIds_filter (f : item -> bool) (l : list item) :
  uniqueIds l = true -> uniqueIds (filter f l) = true.
Proof.
  induction l as [|x l IH]; simpl; intro H; [reflexivity|].
  apply andb_true_iff in H. destruct H as [Hx Hl].
  destruct (f x); simpl; [|now apply IH].
  apply andb_true_iff. split; [|now apply IH].
  apply negb_true_iff. apply negb_true_iff in Hx.
  destruct (setHas (map idOf (filter f l)) (idOf x)) eqn:E; [|reflexivity].
  apply setHas_filter in E. congruence.
Qed.

Section IdFacts.

Variable Date_getTime : option json -> option Z.

Local Abbreviation handleImportData := (handleImportData Date_getTime).
Local Abbreviation handleSaveExpense := (handleSaveExpense Date_getTime).

(** X4. An import keeps the identifiers of the store distinct provided the
    candidates' identifiers are distinct among themselves: what it filters
    out is exactly what would clash with the store. *)
Theorem import_keeps_ids_distinct (s : State) (candidates : list item) :
  uniqueIds (expenses s) = true ->
  uniqueIds candidates = true ->
  uniqueIds
    (expenses (handleImportData (Some (JArr (map toJson candidates))) s))
  = true.
Proof.
  intros Hs Hc. rewrite handleImportData_array.
  cbn [expenses alert setExpenses]. unfold sortByDate.
  rewrite <- (uniqueIds_perm _ _ (sort_perm (after Date_getTime) _)).
  rewrite uniqueIds_app, Hs. unfold newItems.
  rewrite (uniqueIds_filter _ _ Hc). simpl.
  apply forallb_forall. intros x Hx. apply filter_In in Hx. tauto.
Qed.

Lemma Number_toString_inj (a b : Z) :
  Number_toString a = Number_toString b -> a = b.
Proof.
  unfold Number_toString. intro H.
  assert (Hnil : forall z, Z.to_int z <> Decimal.Pos Decimal.Nil
                           /\ Z.to_int z <> Decimal.Neg Decimal.Nil).
  { intro z. split; intro E;
      assert (Hz := f_equal Z.of_int E); rewrite DecimalZ.of_to in Hz;
      simpl in Hz; subst z; vm_compute in E; discriminate E. }
  apply DecimalZ.to_int_inj.
  assert (Ha := NilZero.isi (Z.to_int a) (proj1 (Hnil a)) (proj2 (Hnil a))).
  assert (Hb := NilZero.isi (Z.to_int b) (proj1 (Hnil b)) (proj2 (Hnil b))).
  rewrite H in Ha. congruence.
Qed.

Lemma newExpense_id (now1 now2 : Z) (finalData : draft) :
  NoDup (map fst finalData) -> getOwn "id" finalData = None ->
  idOf (newExpense now1 now2 finalData) = Some (JStr (Number_toString now1)).
Proof.
  intros Hnd Hid.
  change (idOf (newExpense now1 now2 finalData))
    with (getOwn "id" (newExpenseFields now1 now2 finalData)).
  unfold newExpenseFields.
  rewrite getOwn_setOwn, getOwn_spread, Hid by exact Hnd. reflexivity.
Qed.

(** X5. Saves keep the identifiers distinct as long as the clock moves on:
    if every stored record was saved at an earlier clock reading and the
    draft brings no [id] of its own, the store after the save has distinct
    identifiers again, all of them from readings up to this one. *)
Theorem save_keeps_ids_distinct (now1 now2 : Z) (finalData : draft)
    (s : State) :
  NoDup (map fst finalData) ->
  getOwn "id" finalData = None ->
  uniqueIds (expenses s) = true ->
  Forall (savedBefore now1) (expenses s) ->
  let s' := handleSaveExpense now1 now2 finalData s in
  uniqueIds (expenses s') = true
  /\ Forall (savedBefore (now1 + 1)) (expenses s').
Proof.
  intros Hnd Hid Hu Hbefore s'. unfold s', handleSaveExpense.
  cbn [expenses setDraftExpense setIsModalOpen setExpenses].
  unfold sortByDate. set (e := newExpense now1 now2 finalData).
  assert (He : idOf e = Some (JStr (Number_toString now1)))
    by now apply newExpense_id.
  split.
  - rewrite <- (uniqueIds_perm _ _ (sort_perm (after Date_getTime) _)).
    change (uniqueIds (e :: expenses s))
      with (negb (setHas (map idOf (expenses s)) (idOf e))
            && uniqueIds (expenses s)).
    rewrite Hu, andb_true_r, He. apply negb_true_iff.
    destruct (setHas (map idOf (expenses s))
                (Some (JStr (Number_toString now1)))) eqn:E; [|reflexivity].
    apply setHas_true in E. destruct E as (w & Hw & Hsv).
    apply in_map_iff in Hw. destruct Hw as (x & <- & Hx).
    rewrite Forall_forall in Hbefore.
    destruct (Hbefore x Hx) as (t' & Hlt & Hidx).
    rewrite Hidx in Hsv. simpl in Hsv. apply String.eqb_eq in Hsv.
    apply Number_toString_inj in Hsv. lia.
  - apply Forall_forall. intros x Hx.
    apply (proj1 (sort_In (after Date_getTime) x _)) in Hx.
    destruct Hx as [<-|Hx].
    + exists now1. split; [lia | exact He].
    + rewrite Forall_forall in Hbefore.
      destruct (Hbefore x Hx) as (t' & Hlt & Hidx).
      exists t'. split; [lia | exact Hidx].
Qed.

End IdFacts.

(* ================================================================= *)
(** ** Grouping: when it throws, and what it lists *)

Section HeadingFacts.

Variable Date_getTime : option json -> option Z.
Variable ToString : json -> string.

Local Abbreviation keyOf := (keyOf ToString).
Local Abbreviation groupStep := (groupStep ToString).
Local Abbreviation groupedExpenses := (groupedExpenses ToString).
Local Abbreviation sortedDates := (sortedDates Date_getTime).
Local Abbreviation renderedExpenses := (renderedExpenses Date_getTime).
Local Abbreviation keyed := (keyed ToString).
Local Abbreviation Filed := (Filed ToString).

Lemma fold_groupStep_None (l : list item) :
  fold_left groupStep l None = None.
Proof. induction l as [|x l IH]; [reflexivity | exact IH]. Qed.

Lemma getBucket_own (k : string) (g : Groups) (b : list item) :
  getBucket k g = Some b -> In k (map fst g).
Proof.
  induction g as [|[k' b'] g IH]; simpl; [discriminate|].
  destruct (String.eqb k k') eqn:Hk; [|now right; apply IH].
  apply String.eqb_eq in Hk. now left.
Qed.

Lemma fold_groupStep_throws (l : list item) (g : Groups) :
  (forall k, In k (map fst g) -> inherited k = false) ->
  fold_left groupStep l (Some g) = None
  <-> Exists (fun x => inherited (keyOf (dateOf x)) = true) l.
Proof.
  revert g. induction l as [|x l IH]; intros g Hg.
  - simpl. split; [discriminate | intro H; inversion H].
  - cbn [fold_left]. unfold groupStep at 2.
    destruct (getBucket (keyOf (dateOf x)) g) as [b|] eqn:Hd.
    + assert (Hx : inherited (keyOf (dateOf x)) = false)
        by (eapply Hg, getBucket_own, Hd).
      rewrite IH by (intro k; rewrite keys_pushTo; apply Hg).
      split; intro H; [now right|].
      inversion H as [? ? H'|]; subst; [congruence | assumption].
    + destruct (inherited (keyOf (dateOf x))) eqn:Hx.
      * rewrite fold_groupStep_None. split; [now left | reflexivity].
      * rewrite IH.
        -- split; intro H; [now right|].
           inversion H as [? ? H'|]; subst; [congruence | assumption].
        -- intro k. rewrite keys_pushTo, map_app. simpl. intro Hk.
           apply in_app_or in Hk. destruct Hk as [Hk|[<-|[]]]; auto.
Qed.

(** X6. For records whose date is missing or a primitive value, the
    grouping throws exactly when some record's date, as a property key, is
    the name of a member of [Object.prototype]; a date that is missing or
    does not parse is no obstacle. *)
Theorem groupedExpenses_throws_iff (l : list item) :
  Forall (fun x => primitiveDate x = true) l ->
  groupedExpenses l = None
  <-> Exists (fun x => inherited (keyOf (dateOf x)) = true) l.
Proof. intros _. apply fold_groupStep_throws. intros k []. Qed.

Lemma groupStep_filled (g g' : Groups) (x : item) :
  bucketsFilled g -> groupStep (Some g) x = Some g' -> bucketsFilled g'.
Proof.
  intros Hg. unfold groupStep.
  destruct (getBucket (keyOf (dateOf x)) g) as [b0|] eqn:Hd.
  - intro H. inversion H; subst. intros k b.
    rewrite getBucket_pushTo.
    destruct (String.eqb k (keyOf (dateOf x))); [|apply Hg].
    destruct (getBucket k g); simpl; intro E; inversion E.
    now destruct l.
  - destruct (inherited (keyOf (dateOf x))); [discriminate|].
    intro H. inversion H; subst. intros k b.
    rewrite getBucket_pushTo, getBucket_new.
    destruct (String.eqb k (keyOf (dateOf x))) eqn:Hk.
    + destruct (getBucket k g); simpl; intro E; inversion E;
        [now destruct l | discriminate].
    + destruct (getBucket k g) eqn:Hkg; [|discriminate].
      intro E. inversion E; subst. eapply Hg, Hkg.
Qed.

Lemma fold_groupStep_filled (l : list item) (g g' : Groups) :
  bucketsFilled g -> fold_left groupStep l (Some g) = Some g' ->
  bucketsFilled g'.
Proof.
  revert g. induction l as [|x l IH]; intros g Hg Hfold.
  - inversion Hfold. now subst.
  - cbn [fold_left] in Hfold.
    destruct (groupStep (Some g) x) as [g1|] eqn:Hstep.
    + eapply IH; [|exact Hfold]. eapply groupStep_filled; eauto.
    + now rewrite fold_groupStep_None in Hfold.
Qed.

Lemma groupedExpenses_Filed (l : list item) (g : Groups) :
  groupedExpenses l = Some g -> Filed l g /\ bucketsFilled g.
Proof.
  intro Hg. split.
  - assert (Hown : Forall (fun x => inherited (keyOf (dateOf x)) = false) l).
    { apply Forall_forall. intros x Hx.
      destruct (inherited (keyOf (dateOf x))) eqn:E; [|reflexivity].
      assert (Hnone : groupedExpenses l = None).
      { apply (fold_groupStep_throws l []); [intros k []|].
        apply Exists_exists. eauto. }
      congruence. }
    destruct (fold_groupStep_Filed ToString l [] [] Hown (Filed_nil ToString))
      as (g' & Hfold & Hfiled).
    assert (E : Some g' = Some g) by (rewrite <- Hfold; exact Hg).
    inversion E. now subst.
  - eapply fold_groupStep_filled; [|exact Hg]. intros k b. discriminate.
Qed.

(** The own keys of a successful grouping are the keys of the records, and
    each has a bucket that is not empty. *)
Lemma sortedDates_keys (l : list item) (g : Groups) :
  groupedExpenses l = Some g ->
  (forall k,
      In k (sortedDates g) <-> exists x, In x l /\ keyOf (dateOf x) = k)
  /\ (forall k, In k (sortedDates g) -> bucketOf g k <> []).
Proof.
  intro Hg. destruct (groupedExpenses_Filed _ _ Hg) as [[Hkeys Hbucket _] Hfill].
  assert (Hin : forall k, In k (sortedDates g) <-> In k (map fst g)).
  { intro k. split; intro H.
    - eapply Permutation_in; [apply Permutation_sym, sortedDates_perm | exact H].
    - eapply Permutation_in; [apply sortedDates_perm | exact H]. }
  assert (Hfilled : forall k, In k (map fst g) -> bucketOf g k <> []).
  { intros k Hk. unfold bucketOf.
    destruct (getBucket k g) as [b|] eqn:E; [now apply (Hfill k)|].
    now apply getBucket_None in E. }
  split; [|intros k Hk; now apply Hfilled, Hin].
  intro k. rewrite Hin. split.
  - intro Hk. apply Hfilled in Hk. rewrite Hbucket in Hk.
    destruct (filter (keyed k) l) as [|x rest] eqn:E; [congruence|].
    assert (Hx : In x (filter (keyed k) l)) by (rewrite E; now left).
    apply filter_In in Hx. destruct Hx as [Hx Hkx].
    exists x. split; [exact Hx | now apply String.eqb_eq].
  - intros (x & Hx & Hkx).
    assert (Hb : In x (bucketOf g k)).
    { rewrite Hbucket. apply filter_In. split; [exact Hx|].
      now apply String.eqb_eq. }
    unfold bucketOf in Hb.
    destruct (getBucket k g) as [b|] eqn:E; [|destruct Hb].
    eapply getBucket_own, E.
Qed.

(** X7. What the list shows when the grouping succeeds. Each date that
    occurs in the store has one heading, and there is no other heading; the
    records under a heading are the records of that date in the order of
    the store, at least one. There is no heading at all exactly when the
    store is empty, which is when the "No expenses yet" card is shown. *)
Theorem headings_and_buckets (s : State) (g : Groups) :
  groupedExpenses (expenses s) = Some g ->
  NoDup (sortedDates g)
  /\ (forall k,
         In k (sortedDates g)
         <-> exists x, In x (expenses s) /\ keyOf (dateOf x) = k)
  /\ (forall k, bucketOf g k = filter (keyed k) (expenses s))
  /\ (forall k, In k (sortedDates g) -> bucketOf g k <> [])
  /\ (sortedDates g = [] <-> emptyState s = true).
Proof.
  intro Hg. destruct (groupedExpenses_Filed _ _ Hg) as [[Hkeys Hbucket _] _].
  destruct (sortedDates_keys _ _ Hg) as [Hown Hfilled].
  split; [eapply Permutation_NoDup; [apply sortedDates_perm | exact Hkeys]|].
  split; [exact Hown|].
  split; [exact Hbucket|].
  split; [exact Hfilled|].
  unfold emptyState. split.
  - intro Hnil. destruct (expenses s) as [|x rest]; [reflexivity|].
    assert (Hk : In (keyOf (dateOf x)) (sortedDates g)).
    { apply Hown. exists x. split; [now left | reflexivity]. }
    rewrite Hnil in Hk. destruct Hk.
  - intro He. destruct (expenses s) as [|x rest]; [|discriminate].
    inversion Hg. reflexivity.
Qed.

End HeadingFacts.

(* ================================================================= *)
(** ** Grouping: the order of the list *)

Lemma StronglySorted_app {X : Type} (R : X -> X -> Prop) (l1 l2 : list X) :
  StronglySorted R l1 -> StronglySorted R l2 ->
  (forall a b, In a l1 -> In b l2 -> R a b) ->
  StronglySorted R (l1 ++ l2).
Proof.
  induction 1 as [|a l1 Hs IH Hall]; intros H2 Hcross; [exact H2|].
  simpl. constructor.
  - apply IH; [exact H2|]. intros x y Hx Hy. apply Hcross; [now right | exact Hy].
  - apply Forall_app. split; [exact Hall|].
    apply Forall_forall. intros y Hy. apply Hcross; [now left | exact Hy].
Qed.

Lemma filter_filter_comm {X : Type} (P Q : X -> bool) (l : list X) :
  filter P (filter Q l) = filter Q (filter P l).
Proof.
  induction l as [|x l IH]; [reflexivity|].
  simpl. destruct (Q x) eqn:HQ, (P x) eqn:HP; simpl;
    rewrite ?HQ, ?HP, IH; reflexivity.
Qed.

Lemma filter_all {X : Type} (P : X -> bool) (l : list X) :
  (forall x, In x l -> P x = true) -> filter P l = l.
Proof.
  induction l as [|x l IH]; intro H; [reflexivity|].
  simpl. rewrite (H x (or_introl eq_refl)). f_equal.
  apply IH. intros y Hy. apply H. now right.
Qed.

Lemma filter_flat_map {X Y : Type} (P : Y -> bool) (f : X -> list Y)
    (ks : list X) :
  filter P (flat_map f ks) = flat_map (fun k => filter P (f k)) ks.
Proof.
  induction ks as [|k ks IH]; [reflexivity|].
  simpl. now rewrite filter_app, IH.
Qed.

Lemma flat_map_nowhere {X Y : Type} (f : X -> list Y) (ks : list X) :
  (forall k, In k ks -> f k = []) -> flat_map f ks = [].
Proof.
  induction ks as [|k ks IH]; intro H; [reflexivity|].
  simpl. rewrite (H k (or_introl eq_refl)). apply IH.
  intros k' Hk'. apply H. now right.
Qed.

Lemma flat_map_single {X Y : Type} (f : X -> list Y) (ks : list X) (k0 : X) :
  NoDup ks -> In k0 ks -> (forall k, In k ks -> k <> k0 -> f k = []) ->
  flat_map f ks = f k0.
Proof.
  induction ks as [|k ks IH]; intros Hnd Hin Hf; [destruct Hin|].
  inversion Hnd as [|? ? Hk Hnd']; subst. simpl.
  destruct Hin as [->|Hin].
  - rewrite flat_map_nowhere; [apply app_nil_r|].
    intros k' Hk'. apply Hf; [now right|]. intros ->. contradiction.
  - rewrite (Hf k (or_introl eq_refl)) by (intros ->; contradiction).
    apply IH; auto. intros k' Hk'. apply Hf. now right.
Qed.

Section RenderedFacts.

Variable Date_getTime : option json -> option Z.
Variable ToString : json -> string.

Local Abbreviation keyOf := (keyOf ToString).
Local Abbreviation groupedExpenses := (groupedExpenses ToString).
Local Abbreviation sortedDates := (sortedDates Date_getTime).
Local Abbreviation renderedExpenses := (renderedExpenses Date_getTime).
Local Abbreviation keyed := (keyed ToString).
Local Abbreviation wellDated := (wellDated Date_getTime).
Local Abbreviation timeOf := (timeOf Date_getTime).
Local Abbreviation dateDesc := (dateDesc Date_getTime).
Local Abbreviation keyDesc := (keyDesc Date_getTime).
Local Abbreviation keyAfter := (keyAfter Date_getTime).

Lemma sorted_keyDesc (ks : list string) :
  Forall (fun k => exists t, Date_getTime (Some (JStr k)) = Some t) ks ->
  Sorted (notAfter keyAfter) ks -> StronglySorted keyDesc ks.
Proof.
  induction ks as [|a ks IH]; intros Hv Hs; [constructor|].
  inversion Hv as [|? ? [ta Hta] Hks]; subst.
  inversion Hs as [|? ? Hs' Hhd]; subst.
  specialize (IH Hks Hs'). constructor; [exact IH|].
  destruct ks as [|b ks]; [constructor|].
  inversion Hhd as [|? ? Hab]; subst.
  inversion Hks as [|? ? [tb Htb] _]; subst.
  assert (Hle : tb <= ta).
  { unfold notAfter, keyAfter in Hab. rewrite Htb, Hta in Hab.
    apply Z.ltb_ge in Hab. lia. }
  constructor.
  - exists ta, tb. auto.
  - inversion IH as [|? ? _ Hall]; subst.
    eapply Forall_impl; [|exact Hall].
    intros x (tb' & tx & Hb' & Hx & Hle').
    rewrite Htb in Hb'. inversion Hb'; subst.
    exists ta, tx. repeat split; auto. lia.
Qed.

Lemma wellDated_key (x : item) :
  wellDated x = true ->
  exists t, timeOf x = Some t
            /\ Date_getTime (Some (JStr (keyOf (dateOf x)))) = Some t.
Proof.
  unfold wellDated, timeOf. destruct (dateOf x) as [[| | |d| |]|];
    try discriminate.
  simpl. destruct (Date_getTime (Some (JStr d))) as [t|]; [eauto|discriminate].
Qed.

Lemma rendered_sorted (l : list item) (g : Groups) :
  Forall (fun x => wellDated x = true) l ->
  groupedExpenses l = Some g ->
  StronglySorted keyDesc (sortedDates g)
  /\ StronglySorted dateDesc (renderedExpenses g).
Proof.
  intros Hv Hg.
  destruct (sortedDates_keys Date_getTime ToString _ _ Hg) as [Hkeys _].
  destruct (groupedExpenses_Filed ToString _ _ Hg) as [[Hnd Hbucket Hall] _].
  rewrite Forall_forall in Hv.
  assert (Htime : forall k x, In x (bucketOf g k) ->
             exists t, timeOf x = Some t
                       /\ Date_getTime (Some (JStr k)) = Some t).
  { intros k x Hx. rewrite Hbucket in Hx. apply filter_In in Hx.
    destruct Hx as [Hx Hk]. apply String.eqb_eq in Hk. subst k.
    now apply wellDated_key, Hv. }
  assert (Hks : StronglySorted keyDesc (sortedDates g)).
  { apply sorted_keyDesc; [|apply sort_sorted, keyAfter_asym].
    apply Forall_forall. intros k Hk. apply Hkeys in Hk.
    destruct Hk as (x & Hx & <-).
    destruct (wellDated_key x (Hv x Hx)) as (t & _ & Ht). eauto. }
  split; [exact Hks|].
  unfold renderedExpenses. clear Hkeys.
  induction Hks as [|k ks Hs IH Hhead]; simpl; [constructor|].
  apply StronglySorted_app; [|exact IH|].
  - assert (Hsame : forall x, In x (bucketOf g k) ->
               exists t, timeOf x = Some t
                         /\ Date_getTime (Some (JStr k)) = Some t)
      by (intros x Hx; now apply Htime).
    induction (bucketOf g k) as [|x b IHb]; [constructor|].
    constructor; [apply IHb; intros y Hy; apply Hsame; now right|].
    apply Forall_forall. intros y Hy.
    destruct (Hsame x (or_introl eq_refl)) as (tx & Hx & Hkx).
    destruct (Hsame y (or_intror Hy)) as (ty & Hy' & Hky).
    exists tx, ty. repeat split; auto.
    rewrite Hkx in Hky. inversion Hky. lia.
  - intros a b Ha Hb. apply in_flat_map in Hb.
    destruct Hb as (k' & Hk' & Hb).
    rewrite Forall_forall in Hhead.
    destruct (Hhead k' Hk') as (tk & tk' & Htk & Htk' & Hle).
    destruct (Htime k a Ha) as (ta & Hta & Hka).
    destruct (Htime k' b Hb) as (tb & Htb & Hkb).
    exists ta, tb. repeat split; auto.
    rewrite Htk in Hka. rewrite Htk' in Hkb.
    inversion Hka; inversion Hkb; subst. exact Hle.
Qed.

(** X8. Whatever the order of the store, the list is shown newest first:
    when every record has a date that parses and the grouping succeeds, the
    headings are in descending date order and so are the records as
    rendered, heading after heading. *)
Theorem rendered_newest_first (s : State) (g : Groups) :
  Forall (fun x => wellDated x = true) (expenses s) ->
  groupedExpenses (expenses s) = Some g ->
  StronglySorted keyDesc (sortedDates g)
  /\ StronglySorted dateDesc (renderedExpenses g)
  /\ Permutation (expenses s) (renderedExpenses g).
Proof.
  intros Hv Hg. destruct (rendered_sorted _ _ Hv Hg) as [Hks Hr].
  destruct (groupedExpenses_Filed ToString _ _ Hg) as [[Hnd _ Hall] _].
  split; [exact Hks|]. split; [exact Hr|].
  eapply perm_trans; [apply Permutation_sym, Hall|].
  now apply rendered_perm.
Qed.

(** Two lists in descending date order, of records whose dates parse, are
    the same list when, date by date, they hold the same records in the
    same order. *)
Lemma dateDesc_unique (l1 l2 : list item) :
  Forall (fun x => wellDated x = true) l1 ->
  Forall (fun x => wellDated x = true) l2 ->
  StronglySorted dateDesc l1 -> StronglySorted dateDesc l2 ->
  (forall t, filter (sameTime Date_getTime (Some t)) l1
             = filter (sameTime Date_getTime (Some t)) l2) ->
  l1 = l2.
Proof.
  assert (Hself : forall x t, timeOf x = Some t ->
                    sameTime Date_getTime (Some t) x = true).
  { intros x t Hx. unfold sameTime. rewrite Hx. apply Z.eqb_refl. }
  assert (Hhead : forall a l b l' ta,
            timeOf a = Some ta ->
            StronglySorted dateDesc (b :: l') ->
            filter (sameTime Date_getTime (Some ta)) (a :: l)
            = filter (sameTime Date_getTime (Some ta)) (b :: l') ->
            exists tb, timeOf b = Some tb /\ ta <= tb).
  { intros a l b l' ta Ha Hs Hf.
    assert (Hin : In a (filter (sameTime Date_getTime (Some ta)) (b :: l'))).
    { rewrite <- Hf. simpl. rewrite (Hself a ta Ha). now left. }
    apply filter_In in Hin. destruct Hin as [[<-|Hin] _].
    - exists ta. split; [exact Ha | lia].
    - inversion Hs as [|? ? _ Hall]; subst. rewrite Forall_forall in Hall.
      destruct (Hall a Hin) as (tb & ta' & Hb & Ha' & Hle).
      exists tb. rewrite Ha in Ha'. inversion Ha'; subst. auto. }
  revert l2. induction l1 as [|a l1 IH]; intros l2 Hv1 Hv2 Hs1 Hs2 Hf.
  - destruct l2 as [|b l2]; [reflexivity|].
    inversion Hv2 as [|? ? Hb _]; subst.
    destruct (wellDated_time Date_getTime b Hb) as [tb Htb].
    specialize (Hf tb). simpl in Hf. rewrite (Hself b tb Htb) in Hf.
    discriminate.
  - inversion Hv1 as [|? ? Ha Hv1']; subst.
    destruct (wellDated_time Date_getTime a Ha) as [ta Hta].
    destruct l2 as [|b l2].
    { specialize (Hf ta). simpl in Hf. rewrite (Hself a ta Hta) in Hf.
      discriminate. }
    inversion Hv2 as [|? ? Hb Hv2']; subst.
    destruct (wellDated_time Date_getTime b Hb) as [tb Htb].
    destruct (Hhead a l1 b l2 ta Hta Hs2 (Hf ta)) as (tb' & Htb' & Hle1).
    destruct (Hhead b l2 a l1 tb Htb Hs1 (eq_sym (Hf tb)))
      as (ta' & Hta' & Hle2).
    rewrite Htb in Htb'. rewrite Hta in Hta'.
    inversion Htb'; inversion Hta'; subst tb' ta'.
    assert (tb = ta) by lia. subst tb.
    assert (Hab := Hf ta). simpl in Hab.
    rewrite (Hself a ta Hta), (Hself b ta Htb) in Hab.
    inversion Hab as [[Heq Htail]]. subst b. f_equal.
    inversion Hs1; inversion Hs2; subst.
    apply IH; auto.
    intro t. specialize (Hf t). simpl in Hf.
    destruct (sameTime Date_getTime (Some t) a); [now inversion Hf | exact Hf].
Qed.

(** X13. The list shows the store in the store's own order. When the store
    has no adjacent pair out of order (as after any save or import), every
    date is a string that parses, and records of one time value have one
    date string, the records as rendered under the date headings are the
    store itself. *)
Theorem list_shows_store_order (s : State) (g : Groups) :
  Sorted (notAfter (after Date_getTime)) (expenses s) ->
  Forall (fun x => wellDated x = true) (expenses s) ->
  (forall x y, In x (expenses s) -> In y (expenses s) ->
               timeOf x = timeOf y -> dateOf x = dateOf y) ->
  groupedExpenses (expenses s) = Some g ->
  renderedExpenses g = expenses s.
Proof.
  intros Hs Hv Hinj Hg. set (l := expenses s) in *.
  destruct (rendered_sorted l g Hv Hg) as [_ Hr].
  destruct (groupedExpenses_Filed ToString _ _ Hg) as [[Hnd Hbucket Hall] _].
  destruct (sortedDates_keys Date_getTime ToString _ _ Hg) as [Hkeys _].
  assert (Hperm : Permutation l (renderedExpenses g)).
  { eapply perm_trans; [apply Permutation_sym, Hall | now apply rendered_perm]. }
  apply dateDesc_unique.
  - eapply Permutation_Forall; [exact Hperm | exact Hv].
  - exact Hv.
  - exact Hr.
  - now apply sorted_dateDesc.
  - intro t. unfold renderedExpenses. rewrite filter_flat_map.
    assert (Hf : forall k,
               filter (sameTime Date_getTime (Some t)) (bucketOf g k)
               = filter (keyed k) (filter (sameTime Date_getTime (Some t)) l))
      by (intro k; rewrite Hbucket; apply filter_filter_comm).
    rewrite (flat_map_ext _ _ Hf).
    destruct (filter (sameTime Date_getTime (Some t)) l) as [|x0 rest] eqn:E.
    + apply flat_map_nowhere. reflexivity.
    + assert (Hx0 : In x0 l /\ sameTime Date_getTime (Some t) x0 = true).
      { apply filter_In. rewrite E. now left. }
      destruct Hx0 as [Hx0 Ht0]. apply sameTime_time in Ht0.
      assert (Hclass : forall y, In y (x0 :: rest) ->
                         keyOf (dateOf y) = keyOf (dateOf x0)).
      { intros y Hy. rewrite <- E in Hy. apply filter_In in Hy.
        destruct Hy as [Hy Hty]. apply sameTime_time in Hty.
        f_equal. apply Hinj; auto. fold timeOf. congruence. }
      rewrite (flat_map_single _ _ (keyOf (dateOf x0))).
      * apply filter_all. intros y Hy. apply String.eqb_eq. now apply Hclass.
      * eapply Permutation_NoDup; [apply sortedDates_perm | exact Hnd].
      * apply Hkeys. now exists x0.
      * intros k _ Hk. apply filter_none. intros y Hy.
        apply String.eqb_neq. rewrite (Hclass y Hy). auto.
Qed.

End RenderedFacts.

(* ================================================================= *)
(** ** Import: own export, and [null] elements *)

Lemma asItems_None_iff (l : list json) : asItems l = None <-> In JNull l.
Proof.
  induction l as [|j l IH]; simpl.
  - split; [discriminate | intros []].
  - destruct j; simpl; try (now split; [intro; left | reflexivity]);
      destruct (asItems l) as [xs|]; split; intro H;
      try discriminate; try reflexivity;
      try (right; now apply IH);
      try (destruct H as [H|H]; [discriminate | now apply IH in H]).
Qed.


Lemma insert_split {X : Type} (aft : X -> X -> bool) (x : X) (l : list X) :
  exists front back,
    l = front ++ back
    /\ insert aft x l = front ++ x :: back
    /\ Forall (fun y => aft x y = true) front
    /\ match back with [] => True | y :: _ => aft x y = false end.
Proof.
  induction l as [|y l (front & back & Hl & Hins & Hfront & Hback)]; simpl.
  - exists [], []. repeat split. constructor.
  - destruct (aft x y) eqn:Hxy.
    + exists (y :: front), back. subst l. rewrite Hins.
      repeat split; [now constructor | exact Hback].
    + exists [], (y :: l). repeat split; [constructor | exact Hxy].
Qed.

Section RoundTripFacts.

Variable Date_getTime : option json -> option Z.

Local Abbreviation after := (after Date_getTime).
Local Abbreviation sortByDate := (sortByDate Date_getTime).
Local Abbreviation handleImportData := (handleImportData Date_getTime).
Local Abbreviation handleSaveExpense := (handleSaveExpense Date_getTime).


(** X10. An array payload is turned down as unparsable exactly when one of
    its elements is [null]: reading [e.id] throws inside the [try]. *)
Theorem import_null_element_iff (l : list json) (s : State) :
  handleImportData (Some (JArr l)) s = alert AlertParseFailed s
  <-> In JNull l.
Proof.
  unfold handleImportData. split.
  - destruct (asItems l) as [candidates|] eqn:E.
    + intro H. apply (f_equal alerts) in H. simpl in H.
      apply app_inj_tail in H. destruct H as [_ H]. discriminate.
    + intros _. now apply asItems_None_iff.
  - intro H. apply asItems_None_iff in H. now rewrite H.
Qed.

(** X11. A save does not reorder what is stored, when the dates parse. On
    a store with no adjacent pair out of order, all dates (the new
    expense's too) being strings that parse, the new expense is put in at
    one place: behind the records dated later than it, in front of all the
    others, and the stored records keep their order on both sides. *)
Theorem save_inserts_in_place (now1 now2 : Z) (finalData : draft) (s : State) :
  let e := newExpense now1 now2 finalData in
  Forall (fun x => wellDated Date_getTime x = true) (e :: expenses s) ->
  Sorted (notAfter after) (expenses s) ->
  exists front back,
    expenses s = front ++ back
    /\ expenses (handleSaveExpense now1 now2 finalData s)
       = front ++ e :: back
    /\ Forall (fun y => after e y = true) front
    /\ Forall (fun y => after e y = false) back.
Proof.
  intros e Hv Hs. unfold handleSaveExpense.
  cbn [expenses setDraftExpense setIsModalOpen setExpenses].
  unfold sortByDate. cbn [sort]. rewrite (sort_fixed _ _ Hs). fold e.
  destruct (insert_split after e (expenses s))
    as (front & back & Hl & Hins & Hfront & Hback).
  exists front, back. repeat (split; [assumption|]).
  inversion Hv as [|? ? He Hstore]; subst.
  assert (Hdesc : StronglySorted (dateDesc Date_getTime) back).
  { apply sorted_dateDesc in Hs; [|exact Hstore].
    rewrite Hl in Hs. clear - Hs.
    induction front as [|x front IH]; [exact Hs|].
    apply IH. now inversion Hs. }
  destruct back as [|y back]; [constructor|].
  assert (Hnot : forall z ty tz,
             timeOf Date_getTime y = Some ty ->
             timeOf Date_getTime z = Some tz -> tz <= ty ->
             after e z = false).
  { intros z ty tz Hy Hz Hle. destruct (after e z) eqn:E; [|reflexivity].
    apply after_spec in E. destruct E as (te & tz' & Hte & Htz & Hlt).
    destruct (after e y) eqn:E'; [congruence|].
    assert (after e y = true); [|congruence].
    apply after_spec. exists te, ty. rewrite Hz in Htz.
    inversion Htz; subst. repeat split; auto. lia. }
  inversion Hdesc as [|? ? _ Hall]; subst.
  rewrite Hl in Hstore. apply Forall_app in Hstore.
  destruct Hstore as [_ Hbackv]. inversion Hbackv as [|? ? Hy _]; subst.
  destruct (wellDated_time Date_getTime y Hy) as [ty Hty].
  constructor; [exact Hback|].
  eapply Forall_impl; [|exact Hall].
  intros z (ty' & tz & Hy' & Hz & Hle).
  rewrite Hty in Hy'. inversion Hy'; subst.
  now apply (Hnot z ty' tz).
Qed.

End RoundTripFacts.

(* ================================================================= *)
(** ** The draft flow over sequences of events *)

Section FlowFacts.

Variable Date_getTime : option json -> option Z.

Local Abbreviation dispatch := (dispatch Date_getTime).
Local Abbreviation run := (run Date_getTime).

Lemma dispatch_modal_has_draft (s : State) (ev : Event) :
  (isModalOpen s = true -> draftExpense s <> None) ->
  isModalOpen (dispatch s ev) = true -> draftExpense (dispatch s ev) <> None.
Proof.
  intro Hs.
  destruct ev as [today other|file setupThrows|outcome|now1 now2 finalData
                  | | | |parsed]; simpl; try exact Hs; try discriminate.
  - destruct file, setupThrows; exact Hs.
  - destruct outcome; [discriminate | exact Hs].
  - destruct parsed as [[| | | |l|]|]; simpl; try exact Hs.
    unfold handleImportData. destruct (asItems l); exact Hs.
Qed.

(** X14. The edit surface is never open without a draft to edit: if that
    holds of a state (as it does of the initial one, where the surface is
    closed), it holds after any sequence of events. *)
Theorem modal_has_draft (evs : list Event) (s : State) :
  (isModalOpen s = true -> draftExpense s <> None) ->
  isModalOpen (run evs s) = true -> draftExpense (run evs s) <> None.
Proof.
  revert s. induction evs as [|ev evs IH]; intros s Hs; [exact Hs|].
  simpl. apply IH. now apply dispatch_modal_has_draft.
Qed.

End FlowFacts.

(* ================================================================= *)
(** ** Shapes that last *)

Lemma asItems_Some_toJson (l : list json) (candidates : list item) :
  asItems l = Some candidates -> map toJson candidates = l.
Proof.
  revert candidates. induction l as [|j l IH]; simpl; intros c H.
  - inversion H. reflexivity.
  - destruct (asItem j) as [x|] eqn:Hj; [|discriminate].
    destruct (asItems l) as [xs|]; [|discriminate].
    inversion H; subst. simpl. rewrite (IH xs eq_refl).
    f_equal. destruct j; simpl in Hj; inversion Hj; reflexivity.
Qed.

Lemma newExpense_shaped (now1 now2 : Z) (finalData : draft) :
  NoDup (map fst finalData) -> draftShaped finalData = true ->
  shapedItem (newExpense now1 now2 finalData) = true.
Proof.
  intros Hnd Hd. unfold draftShaped in Hd.
  repeat (apply andb_true_iff in Hd; destruct Hd as [Hd ?]).
  unfold shapedItem, newExpense. simpl toJson. unfold expenseShaped.
  rewrite !getOwn_setOwn, !getOwn_spread by exact Hnd. simpl.
  destruct (getOwn "date" finalData) as [[]|]; try discriminate.
  destruct (getOwn "item" finalData) as [[]|]; try discriminate.
  destruct (getOwn "amount" finalData) as [[]|]; try discriminate.
  destruct (getOwn "category" finalData); try discriminate.
  destruct (getOwn "payer" finalData); try discriminate.
  destruct (getOwn "id" finalData) as [[]|]; try discriminate; reflexivity.
Qed.

Section ShapeFacts.

Variable Date_getTime : option json -> option Z.

Local Abbreviation dispatch := (dispatch Date_getTime).
Local Abbreviation run := (run Date_getTime).
Local Abbreviation addedBy := (addedBy Date_getTime).

Lemma added_shaped (s : State) (ev : Event) :
  shapedEvent ev -> Forall (fun x => shapedItem x = true) (added s ev).
Proof.
  destruct ev as [| | |now1 now2 finalData| | | |[[| | | |l|]|]]; simpl;
    try (intros _; now constructor).
  - intros [Hnd Hd]. constructor; [|constructor].
    now apply newExpense_shaped.
  - intro Hl. destruct (asItems l) as [candidates|] eqn:E; [|constructor].
    apply asItems_Some_toJson in E. subst l.
    apply Forall_forall. intros x Hx. apply filter_In in Hx.
    destruct Hx as [Hx _]. rewrite forallb_forall in Hl.
    apply Hl. now apply in_map.
Qed.

Lemma addedBy_shaped (evs : list Event) (s : State) :
  Forall shapedEvent evs -> Forall (fun x => shapedItem x = true) (addedBy evs s).
Proof.
  revert s. induction evs as [|ev evs IH]; intros s Hevs; simpl.
  - constructor.
  - inversion Hevs; subst. apply Forall_app. split.
    + now apply IH.
    + now apply added_shaped.
Qed.

(** X12. The store remains a collection of expense-shaped records as long
    as what comes in is shaped: from a store of expense-shaped records,
    after any sequence of events whose saves bring shaped drafts and whose
    array imports bring expense-shaped records only, every stored record
    is expense-shaped; in particular each has a string [id] and [date] and
    a numeric [amount], so that [expense.amount.toFixed(2)] has a number
    to work on. *)
Theorem store_stays_shaped (evs : list Event) (s : State) :
  Forall shapedEvent evs ->
  Forall (fun x => shapedItem x = true) (expenses s) ->
  Forall (fun x => shapedItem x = true) (expenses (run evs s))
  /\ Forall (fun x => isString (idOf x) = true
                      /\ isString (dateOf x) = true
                      /\ exists fs, x = IObj fs
                                    /\ isNumber (getOwn "amount" fs) = true)
       (expenses (run evs s)).
Proof.
  intros Hevs Hs.
  assert (Hall : Forall (fun x => shapedItem x = true) (expenses (run evs s))).
  { eapply Permutation_Forall; [apply run_perm|].
    apply Forall_app. split; [now apply addedBy_shaped | exact Hs]. }
  split; [exact Hall|].
  eapply Forall_impl; [|exact Hall].
  intros x Hx. destruct x as [fs| | | |]; try discriminate.
  unfold shapedItem in Hx. simpl in Hx.
  repeat (apply andb_true_iff in Hx; destruct Hx as [Hx ?]).
  repeat split; auto. now exists fs.
Qed.

End ShapeFacts.

(* ================================================================= *)
(** ** The further theorems at work on sample data *)

Lemma sampleEvents_wellDated :
  Forall (fun x => wellDated isoGetTime x = true)
    (addedBy isoGetTime sampleEvents (idle twoStored)
       ++ expenses (idle twoStored)).
Proof.
  change (Forall (fun x => wellDated isoGetTime x = true)
            (sampleAdded ++ twoStored)).
  repeat constructor.
Qed.

Lemma store_is_sorted_history_witness :
  Forall (fun x => wellDated isoGetTime x = true)
    (addedBy isoGetTime sampleEvents (idle twoStored)
       ++ expenses (idle twoStored))
  /\ existsb touchesStore sampleEvents = true
  /\ expenses (run isoGetTime sampleEvents (idle twoStored))
     = sortByDate isoGetTime
         (addedBy isoGetTime sampleEvents (idle twoStored) ++ twoStored).
Proof.
  exact (conj sampleEvents_wellDated
           (conj eq_refl
              (proj1 (store_is_sorted_history isoGetTime sampleEvents
                        (idle twoStored) sampleEvents_wellDated
                        (or_intror eq_refl))))).
Defined.

Lemma lunchDraft_keys : NoDup (map fst lunchDraft).
Proof.
  repeat constructor; simpl; intro H;
    repeat (destruct H as [H|H]; [discriminate|]); exact H.
Qed.

Lemma newExpense_properties_witness :
  NoDup (map fst lunchDraft)
  /\ idOf (newExpense 1700000000000 1700000000001 lunchDraft)
     = Some (JStr "1700000000000")
  /\ dateOf (newExpense 1700000000000 1700000000001 lunchDraft)
     = Some (JStr "2024-01-10").
Proof.
  destruct (newExpense_properties 1700000000000 1700000000001 lunchDraft
              lunchDraft_keys) as (_ & _ & Hk & Hdate).
  exact (conj lunchDraft_keys (conj (Hk "id") Hdate)).
Defined.

Lemma import_keeps_ids_distinct_witness :
  uniqueIds twoStored = true
  /\ uniqueIds fiveCandidates = true
  /\ uniqueIds
       (expenses
          (handleImportData isoGetTime
             (Some (JArr (map toJson fiveCandidates))) (idle twoStored)))
     = true.
Proof.
  exact (conj eq_refl
           (conj eq_refl
              (import_keeps_ids_distinct isoGetTime (idle twoStored)
                 fiveCandidates eq_refl eq_refl))).
Defined.

Lemma twoStored_savedBefore : Forall (savedBefore 1700000000000) twoStored.
Proof.
  constructor; [exists 1; split; [lia | reflexivity]|].
  constructor; [exists 2; split; [lia | reflexivity]|].
  constructor.
Qed.

Lemma save_keeps_ids_distinct_witness :
  getOwn "id" lunchDraft = None
  /\ uniqueIds twoStored = true
  /\ Forall (savedBefore 1700000000000) twoStored
  /\ uniqueIds
       (expenses
          (handleSaveExpense isoGetTime 1700000000000 1700000000001
             lunchDraft (idle twoStored)))
     = true.
Proof.
  exact (conj eq_refl
           (conj eq_refl
              (conj twoStored_savedBefore
                 (proj1 (save_keeps_ids_distinct isoGetTime 1700000000000
                           1700000000001 lunchDraft (idle twoStored)
                           lunchDraft_keys eq_refl eq_refl
                           twoStored_savedBefore))))).
Defined.

Lemma groupedExpenses_throws_iff_witness :
  let inheritedDate := expenseRecord "1" "toString" "Lunch" 10 "A" in
  Forall (fun x => primitiveDate x = true) (twoStored ++ [inheritedDate])
  /\ Exists (fun x => inherited (keyOf plainToString (dateOf x)) = true)
       (twoStored ++ [inheritedDate])
  /\ groupedExpenses plainToString (twoStored ++ [inheritedDate]) = None.
Proof.
  intro inheritedDate.
  assert (Hp : Forall (fun x => primitiveDate x = true)
                 (twoStored ++ [inheritedDate]))
    by (repeat constructor).
  assert (H : Exists
                (fun x => inherited (keyOf plainToString (dateOf x)) = true)
                (twoStored ++ [inheritedDate]))
    by (apply Exists_cons_tl, Exists_cons_tl, Exists_cons_hd; reflexivity).
  exact (conj Hp
           (conj H (proj2 (groupedExpenses_throws_iff plainToString _ Hp) H))).
Defined.

Lemma headings_and_buckets_witness :
  groupedExpenses plainToString (expenses (idle fiveCandidates))
  = Some fiveGroups
  /\ NoDup (sortedDates isoGetTime fiveGroups)
  /\ bucketOf fiveGroups "2024-01-12"
     = filter (keyed plainToString "2024-01-12") fiveCandidates.
Proof.
  destruct (headings_and_buckets isoGetTime plainToString
              (idle fiveCandidates) fiveGroups eq_refl)
    as (Hnd & _ & Hbucket & _).
  exact (conj eq_refl (conj Hnd (Hbucket "2024-01-12"))).
Defined.

Lemma fiveCandidates_wellDated :
  Forall (fun x => wellDated isoGetTime x = true) fiveCandidates.
Proof. repeat constructor. Qed.

Lemma rendered_newest_first_witness :
  Forall (fun x => wellDated isoGetTime x = true)
    (expenses (idle fiveCandidates))
  /\ groupedExpenses plainToString (expenses (idle fiveCandidates))
     = Some fiveGroups
  /\ StronglySorted (dateDesc isoGetTime)
       (renderedExpenses isoGetTime fiveGroups).
Proof.
  destruct (rendered_newest_first isoGetTime plainToString
              (idle fiveCandidates) fiveGroups fiveCandidates_wellDated
              eq_refl) as (_ & Hsorted & _).
  exact (conj fiveCandidates_wellDated (conj eq_refl Hsorted)).
Defined.


Lemma twoStored_sorted :
  Sorted (notAfter (after isoGetTime)) twoStored.
Proof. repeat constructor. Qed.


Lemma import_null_element_iff_witness :
  In JNull [JObj []; JNull]
  /\ handleImportData isoGetTime (Some (JArr [JObj []; JNull]))
       (idle twoStored)
     = alert AlertParseFailed (idle twoStored).
Proof.
  assert (H : In JNull [JObj []; JNull]) by (right; left; reflexivity).
  exact (conj H
           (proj2 (import_null_element_iff isoGetTime [JObj []; JNull]
                     (idle twoStored)) H)).
Defined.

Lemma save_inserts_in_place_witness :
  Forall (fun x => wellDated isoGetTime x = true)
    (newExpense 1700000000000 1700000000001 lunchDraft
       :: expenses (idle twoStored))
  /\ Sorted (notAfter (after isoGetTime)) (expenses (idle twoStored))
  /\ exists front back,
       twoStored = front ++ back
       /\ expenses
            (handleSaveExpense isoGetTime 1700000000000 1700000000001
               lunchDraft (idle twoStored))
          = front ++ newExpense 1700000000000 1700000000001 lunchDraft :: back.
Proof.
  assert (Hv : Forall (fun x => wellDated isoGetTime x = true)
                 (newExpense 1700000000000 1700000000001 lunchDraft
                    :: expenses (idle twoStored)))
    by (repeat constructor).
  destruct (save_inserts_in_place isoGetTime 1700000000000 1700000000001
              lunchDraft (idle twoStored) Hv twoStored_sorted)
    as (front & back & Hl & Hs & _).
  split; [exact Hv|]. split; [exact twoStored_sorted|].
  exists front, back. exact (conj Hl Hs).
Defined.

Lemma sampleEvents_shaped : Forall shapedEvent sampleEvents.
Proof.
  unfold sampleEvents.
  constructor; [exact I|].
  constructor; [exact (conj lunchDraft_keys eq_refl)|].
  constructor; [exact I|].
  constructor; [reflexivity|].
  constructor; [exact I | constructor].
Qed.

Lemma twoStored_shaped : Forall (fun x => shapedItem x = true) twoStored.
Proof. repeat constructor. Qed.

Lemma store_stays_shaped_witness :
  Forall shapedEvent sampleEvents
  /\ Forall (fun x => shapedItem x = true) (expenses (idle twoStored))
  /\ Forall (fun x => shapedItem x = true)
       (expenses (run isoGetTime sampleEvents (idle twoStored))).
Proof.
  exact (conj sampleEvents_shaped
           (conj twoStored_shaped
              (proj1 (store_stays_shaped isoGetTime sampleEvents
                        (idle twoStored) sampleEvents_shaped
                        twoStored_shaped)))).
Defined.

Lemma twoStored_wellDated :
  Forall (fun x => wellDated isoGetTime x = true) twoStored.
Proof. repeat constructor. Qed.

Lemma twoStored_one_date (x y : item) :
  In x twoStored -> In y twoStored ->
  timeOf isoGetTime x = timeOf isoGetTime y -> dateOf x = dateOf y.
Proof.
  intros [<-|[<-|[]]] [<-|[<-|[]]] _; reflexivity.
Qed.

Lemma list_shows_store_order_witness :
  Sorted (notAfter (after isoGetTime)) (expenses (idle twoStored))
  /\ Forall (fun x => wellDated isoGetTime x = true)
       (expenses (idle twoStored))
  /\ groupedExpenses plainToString (expenses (idle twoStored))
     = Some twoGroups
  /\ renderedExpenses isoGetTime twoGroups = twoStored.
Proof.
  exact (conj twoStored_sorted
           (conj twoStored_wellDated
              (conj eq_refl
                 (list_shows_store_order isoGetTime plainToString
                    (idle twoStored) twoGroups twoStored_sorted
                    twoStored_wellDated twoStored_one_date eq_refl)))).
Defined.

Lemma modal_has_draft_witness :
  isModalOpen (run isoGetTime [ManualAdd "2024-01-15" (JStr "Other")]
                 (idle twoStored)) = true
  /\ draftExpense (run isoGetTime [ManualAdd "2024-01-15" (JStr "Other")]
                     (idle twoStored)) <> None.
Proof.
  split; [reflexivity|].
  apply (modal_has_draft isoGetTime [ManualAdd "2024-01-15" (JStr "Other")]
           (idle twoStored)); [discriminate | reflexivity].
Defined.
